(** * Candidate-gene filter of the Figure 6 notebook (PE-Aged)

    Shallow embedding of the helper functions of
    [05_Figure6_PE_Aged_pseudotime.ipynb]:
    [get_grouped_data], [filter_genes_by_conditions],
    [calc_avg_distance], [calc_fib_fraction] and the [log2fc] column of
    the Figure 6A table.

    Numbers.  The notebook computes in binary floating point.  A finite
    float is the rational it denotes ([Q]); NaN and the infinities are
    constructors of [fval], and a comparison with NaN is false, as in
    IEEE arithmetic.  Equality of rationals is [Qeq] ([==]).  The bin
    edges and bin centres, which the code compares pseudotimes with to
    decide on a bin, are computed as numpy computes them, every
    operation rounded to the nearest double ([fl64]); sums, means, the
    smoothing, the derivative and the quotients are taken exactly.

    Exceptions.  A Python exception is the [Raise] constructor of
    [result]; it aborts the whole call, as it does in the notebook, which
    has no [try]. *)

From Stdlib Require Import String List ZArith QArith Qminmax Qabs Lia Lqa Bool Arith.
Import ListNotations.

Local Open Scope Q_scope.

(** ** Python results *)

Inductive exn : Type := ValueError | IndexError | KeyError.

Inductive result (A : Type) : Type :=
| Ok (a : A)
| Raise (e : exn).

Arguments Ok {A} a.
Arguments Raise {A} e.

Definition bind {A B : Type} (c : result A) (k : A -> result B) : result B :=
  match c with
  | Ok a => k a
  | Raise e => Raise e
  end.

Notation "x <- c ;; k" := (bind c (fun x => k))
  (at level 61, c at next level, right associativity).

Definition raises {A : Type} (c : result A) : Prop := exists e, c = Raise e.

(** ** Floats as rationals *)

Definition Qltb (x y : Q) : bool := negb (Qle_bool y x).

Definition Qsum (xs : list Q) : Q := fold_right Qplus 0 xs.

Definition Qlen {A : Type} (xs : list A) : Q := inject_Z (Z.of_nat (length xs)).

(** Rounding to the nearest double, ties to even: 53 significant bits,
    spacing [2^-1074] in the subnormal range.  The exponent is not
    bounded above: a result beyond the largest double (an overflow to
    infinity) is outside the model. *)
Definition pow2 (e : Z) : Q :=
  if (0 <=? e)%Z then inject_Z (2 ^ e) else 1 # Z.to_pos (2 ^ (- e)).

(** For [0 < x], the [e] with [2^e <= x < 2^(e+1)]. *)
Definition floor_log2 (x : Q) : Z :=
  let e0 := (Z.log2 (Qnum x) - Z.log2 (Z.pos (Qden x)))%Z in
  if Qle_bool (pow2 e0) x then e0 else (e0 - 1)%Z.

Definition round_half_even (x : Q) : Z :=
  let d := Z.pos (Qden x) in
  let k := (Qnum x / d)%Z in
  match (2 * (Qnum x mod d) ?= d)%Z with
  | Lt => k
  | Gt => (k + 1)%Z
  | Eq => if Z.even k then k else (k + 1)%Z
  end.

Definition fl64 (x : Q) : Q :=
  let x := Qred x in
  if Qeq_bool x 0 then 0
  else
    let q := Z.max (floor_log2 (Qabs x) - 52) (-1074) in
    Qred (inject_Z (round_half_even (x / pow2 q)) * pow2 q).

(** [x] is (the value of) a double. *)
Definition is_double (x : Q) : Prop := fl64 x == x.

(** A float that need not be finite. *)
Inductive fval : Type :=
| Fin (q : Q)
| PosInf
| NegInf
| NaN.

(** [Series.mean()] / [ndarray.mean()]: NaN on an empty input. *)
Definition mean (xs : list Q) : fval :=
  match xs with
  | [] => NaN
  | _ :: _ => Fin (Qsum xs / Qlen xs)
  end.

(** [Series.mean()] of a boolean series: the fraction of [True]. *)
Definition bool_mean (bs : list bool) : fval :=
  mean (map (fun b : bool => if b then 1 else 0) bs).

(** [a > t], [a >= t] and [a <= t] for a finite [t]; false on NaN. *)
Definition fgt (a : fval) (t : Q) : bool :=
  match a with
  | Fin x => Qltb t x
  | PosInf => true
  | NegInf | NaN => false
  end.

Definition fge (a : fval) (t : Q) : bool :=
  match a with
  | Fin x => Qle_bool t x
  | PosInf => true
  | NegInf | NaN => false
  end.

Definition fle (a : fval) (t : Q) : bool :=
  match a with
  | Fin x => Qle_bool x t
  | NegInf => true
  | PosInf | NaN => false
  end.

(** [a / d] for numpy floats, [d] finite: a zero divisor gives an
    infinity or NaN, not an exception. *)
Definition fdiv (a : fval) (d : Q) : fval :=
  match a with
  | Fin x =>
      if Qeq_bool d 0 then
        if Qltb 0 x then PosInf else if Qltb x 0 then NegInf else NaN
      else Fin (x / d)
  | PosInf => if Qeq_bool d 0 then PosInf else if Qltb 0 d then PosInf else NegInf
  | NegInf => if Qeq_bool d 0 then NegInf else if Qltb 0 d then NegInf else PosInf
  | NaN => NaN
  end.

Definition fadd (a : fval) (d : Q) : fval :=
  match a with
  | Fin x => Fin (x + d)
  | other => other
  end.

(** [Series.min()] and [Series.max()]; NaN on an empty series. *)
Definition series_min (xs : list Q) : option Q :=
  match xs with
  | [] => None
  | x :: r => Some (fold_left Qmin r x)
  end.

Definition series_max (xs : list Q) : option Q :=
  match xs with
  | [] => None
  | x :: r => Some (fold_left Qmax r x)
  end.

Definition count {A : Type} (p : A -> bool) (xs : list A) : nat :=
  length (filter p xs).

(** ** The data model: an AnnData object and its expression frame *)

Record Cell : Type := mkCell {
  cell_type2 : string;
  cell_niche : string;
  pseudotime : Q;
  spatial : Q * Q;
  X : list Q
}.

Record AnnData : Type := mkAnnData {
  var_names : list string;
  obs : list Cell
}.

Definition n_obs (adata : AnnData) : nat := length (obs adata).

(** Boolean indexing [adata[m]]: the rows whose mask is true. *)
Definition subset (adata : AnnData) (m : Cell -> bool) : AnnData :=
  mkAnnData (var_names adata) (filter m (obs adata)).

Fixpoint index_of (g : string) (names : list string) : option nat :=
  match names with
  | [] => None
  | n :: r => if String.eqb g n then Some O
              else option_map S (index_of g r)
  end.

(** One entry of [expr_all], the frame built from [adata.X]: column [g]
    at the row of cell [c].  The cascade only reads columns it took from
    [var_names]; the scorers, which take any gene list, test for the
    column first and raise [KeyError]. *)
Definition expr (names : list string) (c : Cell) (g : string) : Q :=
  match index_of g names with
  | Some j => nth j (X c) 0
  | None => 0
  end.

Definition isin (s : string) (l : list string) : bool :=
  existsb (String.eqb s) l.

(** ** numpy *)

Module Numpy.

(** [np.linspace(start, stop, num)] with [endpoint=True], in double
    arithmetic: [y = arange(0, num)], then [y * step + start] (or
    [y / div * delta + start] when the step is zero), one rounding per
    operation, and the last entry set to [stop]. *)
Definition linspace (start stop : Q) (num : Z) : result (list Q) :=
  if (num <? 0)%Z then Raise ValueError
  else
    let div := (num - 1)%Z in
    let delta := fl64 (stop - start) in
    let y := map (fun i => inject_Z (Z.of_nat i)) (seq 0 (Z.to_nat num)) in
    let y :=
      if (0 <? div)%Z then
        let step := fl64 (delta / inject_Z div) in
        if Qeq_bool step 0
        then map (fun a => fl64 (fl64 (a / inject_Z div) * delta)) y
        else map (fun a => fl64 (a * step)) y
      else map (fun a => fl64 (a * delta)) y in
    let y := map (fun a => fl64 (a + start)) y in
    Ok (if (1 <? num)%Z then removelast y ++ [stop] else y).

(** [a.searchsorted(v, side="left")] on an ascending array: the number
    of leading entries strictly below [v]. *)
Fixpoint searchsorted (a : list Q) (v : Q) : nat :=
  match a with
  | [] => O
  | e :: r => if Qltb e v then S (searchsorted r v) else O
  end.

(** [np.diff(a)]. *)
Fixpoint diff (a : list Q) : list Q :=
  match a with
  | x :: ((y :: _) as r) => (y - x) :: diff r
  | _ => []
  end.

(** [a[:k]] for a Python integer [k]: a negative [k] counts from the
    end. *)
Definition slice_to {A : Type} (a : list A) (k : Z) : list A :=
  if (k <? 0)%Z
  then firstn (length a - Z.to_nat (- k)) a
  else firstn (Z.to_nat k) a.

(** Interior points of [np.gradient(f, x)] for non-uniform spacing:
    entry [i] uses [f[i-1], f[i], f[i+1]] and the two neighbouring
    spacings [hs = x[i] - x[i-1]], [hd = x[i+1] - x[i]]. *)
Fixpoint gradient_interior (f dx : list Q) : list Q :=
  match f, dx with
  | f0 :: ((f1 :: f2 :: _) as fr), hs :: ((hd :: _) as dr) =>
      (- hd / (hs * (hd + hs)) * f0
       + (hd - hs) / (hs * hd) * f1
       + hs / (hd * (hd + hs)) * f2) :: gradient_interior fr dr
  | _, _ => []
  end.

(** Interior points for uniform spacing [h]. *)
Fixpoint gradient_interior_uniform (f : list Q) (h : Q) : list Q :=
  match f with
  | f0 :: ((_ :: f2 :: _) as fr) =>
      ((f2 - f0) / (2 * h)) :: gradient_interior_uniform fr h
  | _ => []
  end.

Definition all_equal_to (h : Q) (l : list Q) : bool :=
  forallb (fun d => Qeq_bool d h) l.

(** [np.gradient(f, x)] with a coordinate array and [edge_order=1]:
    one-sided differences at both ends, second-order central
    differences inside.  numpy first wants as many coordinates as
    samples ([ValueError]), then reads [diffx[0]], an [IndexError] when
    there are fewer than two coordinates, and only then checks that there
    are at least two samples. *)
Definition gradient (f x : list Q) : result (list Q) :=
  if negb (length x =? length f)%nat then Raise ValueError
  else
    let dx := diff x in
    match dx with
    | [] => Raise IndexError
    | h0 :: _ =>
        match f with
        | f0 :: f1 :: _ =>
            let hn := last dx 0 in
            let inner :=
              if all_equal_to h0 dx
              then gradient_interior_uniform f h0
              else gradient_interior f dx in
            let fn1 := last f 0 in
            let fn2 := last (removelast f) 0 in
            Ok ((f1 - f0) / h0 :: inner ++ [(fn1 - fn2) / hn])
        | _ => Raise ValueError
        end
    end.

End Numpy.

(** ** pandas *)

Module Pandas.

(** [(np.diff(bins) < 0).any()]. *)
Definition decreasing (bins : list Q) : bool :=
  existsb (fun d => Qltb d 0) (Numpy.diff bins).

(** [len(algos.unique(bins)) < len(bins)]. *)
Fixpoint has_duplicates (bins : list Q) : bool :=
  match bins with
  | [] => false
  | b :: r => existsb (Qeq_bool b) r || has_duplicates r
  end.

(** [pd.cut(x, bins=bins, labels=range(nlabels), include_lowest=True)]
    for an array of edges, [right=True], [duplicates="raise"].  The
    result holds the bin code of every value, [None] where pandas puts
    NaN.  pandas refuses decreasing edges, refuses repeated edges unless
    there are exactly two edges, reads [bins[0]] for [include_lowest]
    and wants one label per interval. *)
Definition cut (x bins : list Q) (nlabels : nat) : result (list (option nat)) :=
  if decreasing bins then Raise ValueError
  else if has_duplicates bins && negb (length bins =? 2)%nat then Raise ValueError
  else
    match bins with
    | [] => Raise IndexError
    | b0 :: _ =>
        if negb (nlabels =? length bins - 1)%nat then Raise ValueError
        else
          Ok (map (fun v =>
                     let id := if Qeq_bool v b0 then 1%nat
                               else Numpy.searchsorted bins v in
                     if (id =? length bins)%nat || (id =? 0)%nat
                     then None else Some (id - 1)%nat) x)
    end.

(** [.astype(int)] on the categorical codes: NaN cannot be cast. *)
Fixpoint astype_int (codes : list (option nat)) : result (list nat) :=
  match codes with
  | [] => Ok []
  | None :: _ => Raise ValueError
  | Some k :: r => r' <- astype_int r ;; Ok (k :: r')
  end.

(** Column [j] of a frame given by its rows. *)
Definition column (j : nat) (rows : list (list Q)) : list Q :=
  map (fun r => nth j r 0) rows.

(** One row of [df.groupby("pt_bin").mean().reindex(range(n), fill_value=0)]:
    the column means of the rows labelled [b], zeros when there is none. *)
Definition group_row (ncols : nat) (df : list (nat * list Q)) (b : nat) : list Q :=
  let rows := map snd (filter (fun kr => (fst kr =? b)%nat) df) in
  match rows with
  | [] => repeat 0 ncols
  | _ :: _ => map (fun j => Qsum (column j rows) / Qlen rows) (seq 0 ncols)
  end.

(** [Series.std()] (sample standard deviation, [ddof=1]) compared with a
    threshold: [std > t].  The deviation is NaN below two samples; above,
    [sqrt v > t] holds exactly when [t < 0] or [v > t * t].  The variance
    is the exact one: the rounding of pandas' sums, which can leave a
    deviation of a few ulps on a constant column, is not modelled. *)
Definition variance (xs : list Q) : Q :=
  let m := Qsum xs / Qlen xs in
  Qsum (map (fun x => (x - m) * (x - m)) xs) / (Qlen xs - 1).

Definition std_gt (xs : list Q) (t : Q) : bool :=
  if (length xs <? 2)%nat then false
  else Qltb t 0 || Qltb (t * t) (variance xs).

End Pandas.

(** ** scipy *)

Module Scipy.

(** Index of the sample that [mode="reflect"] reads at position [k] of an
    array of [n] samples (d c b a | a b c d | d c b a). *)
Definition reflect (n k : Z) : Z :=
  let m := (k mod (2 * n))%Z in
  if (m <? n)%Z then m else (2 * n - 1 - m)%Z.

(** [correlate1d(input, weights, mode="reflect", origin=0)]. *)
Definition correlate1d (input weights : list Q) : list Q :=
  let n := Z.of_nat (length input) in
  let lw := (Z.of_nat (length weights) / 2)%Z in
  map (fun i =>
         Qsum (map (fun j =>
                      nth j weights 0
                      * nth (Z.to_nat (reflect n (Z.of_nat i + Z.of_nat j - lw)))
                            input 0)
                   (seq 0 (length weights))))
      (seq 0 (length input)).

(** [KDTree(data).query(p, k=1)[0]] for the Euclidean metric [dist]: the
    distance from [p] to the nearest point of [data]; infinite when the
    tree holds no point. *)
Definition query (dist : Q * Q -> Q * Q -> Q) (data : list (Q * Q)) (p : Q * Q) : fval :=
  match data with
  | [] => PosInf
  | d :: r => Fin (fold_left Qmin (map (dist p) r) (dist p d))
  end.

(** Mean of the queried distances of several points. *)
Definition query_mean (dist : Q * Q -> Q * Q -> Q) (data : list (Q * Q))
  (ps : list (Q * Q)) : fval :=
  match data, ps with
  | _, [] => NaN
  | [], _ :: _ => PosInf
  | d :: r, _ :: _ =>
      mean (map (fun p => fold_left Qmin (map (dist p) r) (dist p d)) ps)
  end.

End Scipy.

(** ** The notebook's parameters *)

Record Config : Type := mkConfig {
  fibrotic_niches : list string;
  remote_niche : string;
  NUM_BINS : Z;
  min_std : Q;
  min_fraction_target : Q;
  fib_fraction_threshold : Q;
  early_phase_bins : Z;
  fold_change_threshold : Q
}.

(** The values written in the notebook's setup cell. *)
Definition notebook_config : Config := {|
  fibrotic_niches := ["Fibrotic Niche"%string; "Ultraproximal"%string; "Proximal"%string];
  remote_niche := "Remote"%string;
  NUM_BINS := 50;
  min_std := 1 # 10000;
  min_fraction_target := 1 # 10;
  fib_fraction_threshold := 3 # 10;
  early_phase_bins := 50;
  fold_change_threshold := 2
|}.

(** The constant [1e-9] of the fold-change quotients. *)
Definition eps : Q := 1 # 1000000000.

(** ** get_grouped_data *)

(** The edges [bins] and the [pt_bin] column: the bin code of every
    cell of the subset.  On an empty subset [pt.min()] is NaN and there
    are no finite edges; both call sites of the notebook test for an
    empty subset before they bin, and the model raises there. *)
Definition pt_bin (adata_subset : AnnData) (num_bins : Z) : result (list Q * list nat) :=
  let pt := map pseudotime (obs adata_subset) in
  match series_min pt, series_max pt with
  | Some lo, Some hi =>
      bins <- Numpy.linspace lo hi (num_bins + 1) ;;
      codes <- Pandas.cut pt bins (Z.to_nat num_bins) ;;
      ints <- Pandas.astype_int codes ;;
      Ok (bins, ints)
  | _, _ => Raise ValueError
  end.

Definition get_grouped_data (adata_subset : AnnData) (num_bins : Z)
  : result (list (list Q) * list Q) :=
  bp <- pt_bin adata_subset num_bins ;;
  let bins := fst bp in
  let df := combine (snd bp) (map X (obs adata_subset)) in
  let grp := map (Pandas.group_row (length (var_names adata_subset)) df)
                 (seq 0 (Z.to_nat num_bins)) in
  let centers := map (fun ab => fl64 (fl64 (fst ab + snd ab) / 2))
                     (combine (removelast bins) (tl bins)) in
  Ok (grp, centers).

(** ** The cascade and the scorers *)

Section Notebook.

(** The 17 weights [_gaussian_kernel1d(sigma=2, order=0, radius=8)] that
    [gaussian_filter1d(..., sigma=2)] computes ([truncate=4.0]); they are
    values of [exp] and stay a parameter. *)
Variable gauss_weights : list Q.

(** The Euclidean distance of the KD-tree (a square root). *)
Variable dist : Q * Q -> Q * Q -> Q.

Variable cfg : Config.

Definition gaussian_filter1d (input : list Q) : list Q :=
  Scipy.correlate1d input gauss_weights.

Definition is_type (ct : string) (c : Cell) : bool :=
  String.eqb (cell_type2 c) ct.

Definition in_niche (niche : string) (c : Cell) : bool :=
  String.eqb (cell_niche c) niche.

Definition in_fibrotic (c : Cell) : bool :=
  isin (cell_niche c) (fibrotic_niches cfg).

(** [expr_all.loc[m, g]]: column [g] over the cells selected by [m]. *)
Definition expr_col (adata : AnnData) (m : Cell -> bool) (g : string) : list Q :=
  map (fun c => expr (var_names adata) c g) (filter m (obs adata)).

Definition expressed (adata : AnnData) (g : string) (c : Cell) : bool :=
  Qltb 0 (expr (var_names adata) c g).

(** Stage 1: [cond[cond].index.tolist()]. *)
Definition stage1_keep (adata : AnnData) (target_cell_type g : string) : bool :=
  let col := expr_col adata (is_type target_cell_type) g in
  Pandas.std_gt col (min_std cfg)
  && fgt (bool_mean (map (Qltb 0) col)) (min_fraction_target cfg).

Definition stage1 (adata : AnnData) (target_cell_type : string) : list string :=
  filter (stage1_keep adata target_cell_type) (var_names adata).

(** Stage 2: the loop that fills [genes2]. *)
Definition stage2_keep (adata : AnnData) (target_cell_type g : string) : bool :=
  let mask := fun c => is_type target_cell_type c && expressed adata g c in
  let frac := bool_mean (map in_fibrotic (filter mask (obs adata))) in
  fge frac (fib_fraction_threshold cfg).

Definition stage2 (adata : AnnData) (target_cell_type : string)
  (genes : list string) : list string :=
  filter (stage2_keep adata target_cell_type) genes.

(** The test made for one niche of the inner loop of Stage 3, once the
    intersection is known to hold a cell:
    [np.gradient(smooth, ctr)[:early_phase_bins].mean()]. *)
Definition early_slope (adata : AnnData) (target_cell_type g niche : string)
  : result fval :=
  let m := fun c => is_type target_cell_type c && in_niche niche c in
  gc <- get_grouped_data (subset adata m) (NUM_BINS cfg) ;;
  match index_of g (var_names adata) with
  | None => Raise KeyError
  | Some j =>
      let smooth := gaussian_filter1d (Pandas.column j (fst gc)) in
      grad <- Numpy.gradient smooth (snd gc) ;;
      Ok (mean (Numpy.slice_to grad (early_phase_bins cfg)))
  end.

(** The inner loop of Stage 3 with its [ok] flag and [break]. *)
Fixpoint stage3_niches (adata : AnnData) (target_cell_type g : string)
  (niches : list string) : result bool :=
  match niches with
  | [] => Ok true
  | niche :: rest =>
      let m := fun c => is_type target_cell_type c && in_niche niche c in
      if (count m (obs adata) =? 0)%nat then Ok false
      else
        slope <- early_slope adata target_cell_type g niche ;;
        if fle slope 0 then Ok false
        else stage3_niches adata target_cell_type g rest
  end.

Definition stage3_keep (adata : AnnData) (target_cell_type g : string) : result bool :=
  stage3_niches adata target_cell_type g (fibrotic_niches cfg).

(** The outer loop of Stage 3: an exception leaves the function. *)
Fixpoint stage3 (adata : AnnData) (target_cell_type : string)
  (genes2 : list string) : result (list string) :=
  match genes2 with
  | [] => Ok []
  | g :: rest =>
      ok <- stage3_keep adata target_cell_type g ;;
      genes3 <- stage3 adata target_cell_type rest ;;
      Ok (if ok then g :: genes3 else genes3)
  end.

(** Stage 4: the masks [fibm] and [remm] and the loop that fills
    [passed]. *)
Definition fibm (target_cell_type : string) (c : Cell) : bool :=
  is_type target_cell_type c && in_fibrotic c.

Definition remm (target_cell_type : string) (c : Cell) : bool :=
  is_type target_cell_type c && in_niche (remote_niche cfg) c.

Definition fc (adata : AnnData) (target_cell_type g : string) : fval :=
  match fadd (mean (expr_col adata (remm target_cell_type) g)) eps with
  | Fin d => fdiv (mean (expr_col adata (fibm target_cell_type) g)) d
  | _ => NaN
  end.

Definition stage4_keep (adata : AnnData) (target_cell_type g : string) : bool :=
  let rem_vals := expr_col adata (remm target_cell_type) g in
  if forallb (fun v => Qeq_bool v 0) rem_vals then false
  else fgt (fc adata target_cell_type g) (fold_change_threshold cfg).

Definition stage4 (adata : AnnData) (target_cell_type : string)
  (genes3 : list string) : list string :=
  filter (stage4_keep adata target_cell_type) genes3.

Definition filter_genes_by_conditions (adata : AnnData) (target_cell_type : string)
  : result (list string) :=
  let genes := stage1 adata target_cell_type in
  let genes2 := stage2 adata target_cell_type genes in
  genes3 <- stage3 adata target_cell_type genes2 ;;
  Ok (stage4 adata target_cell_type genes3).

(** A [dict] in insertion order, as [pd.Series({g: ... for g in genes})]
    builds it. *)
Fixpoint dict_set {V : Type} (d : list (string * V)) (k : string) (v : V)
  : list (string * V) :=
  match d with
  | [] => [(k, v)]
  | (k', v') :: r =>
      if String.eqb k k' then (k', v) :: r else (k', v') :: dict_set r k v
  end.

Fixpoint dict_get {V : Type} (d : list (string * V)) (k : string) : option V :=
  match d with
  | [] => None
  | (k', v) :: r => if String.eqb k k' then Some v else dict_get r k
  end.

Fixpoint series_of {V : Type} (f : string -> result V) (genes : list string)
  (acc : list (string * V)) : result (list (string * V)) :=
  match genes with
  | [] => Ok acc
  | g :: rest => v <- f g ;; series_of f rest (dict_set acc g v)
  end.

(** [calc_avg_distance]: the value computed for one gene, and the
    series. *)
Definition avg_distance (adata : AnnData) (ct g : string) : result fval :=
  match index_of g (var_names adata) with
  | None => Raise KeyError
  | Some _ =>
      let coords_f := map spatial (filter in_fibrotic (obs adata)) in
      let tgt := filter (is_type ct) (obs adata) in
      if existsb (expressed adata g) tgt
      then Ok (Scipy.query_mean dist coords_f
                 (map spatial (filter (expressed adata g) tgt)))
      else Ok NaN
  end.

Definition calc_avg_distance (adata : AnnData) (genes : list string) (ct : string)
  : result (list (string * fval)) :=
  series_of (avg_distance adata ct) genes [].

(** [calc_fib_fraction]: the value computed for one gene, and the
    series. *)
Definition fib_fraction (adata : AnnData) (ct g : string) : result Q :=
  match index_of g (var_names adata) with
  | None => Raise KeyError
  | Some _ =>
      let tgt := filter (is_type ct) (obs adata) in
      let both := count (fun c => expressed adata g c && in_fibrotic c) tgt in
      let expressing := count (expressed adata g) tgt in
      Ok (inject_Z (Z.of_nat both) / inject_Z (Z.of_nat (Nat.max expressing 1)))
  end.

Definition calc_fib_fraction (adata : AnnData) (genes : list string) (ct : string)
  : result (list (string * Q)) :=
  series_of (fib_fraction adata ct) genes [].

(** The argument of [np.log2] in the [log2fc] column of the Figure 6A
    table, for one gene of the list returned by the cascade. *)
Definition log2fc_arg (adata : AnnData) (ct g : string) : fval :=
  match fadd (mean (expr_col adata (in_niche (remote_niche cfg)) g)) eps with
  | Fin d => fdiv (fadd (mean (expr_col adata (is_type ct) g)) eps) d
  | _ => NaN
  end.

End Notebook.

(** ** Order-preserving sublists *)

Inductive subseq {A : Type} : list A -> list A -> Prop :=
| subseq_nil : subseq [] []
| subseq_skip (x : A) (l1 l2 : list A) : subseq l1 l2 -> subseq l1 (x :: l2)
| subseq_keep (x : A) (l1 l2 : list A) : subseq l1 l2 -> subseq (x :: l1) (x :: l2).

(** ** Example data

    A table of two genes and twelve cells, the Gaussian weights rounded
    to five decimals, and a configuration with four bins. *)

Definition kernel5 : list Q :=
  [7 # 100000; 44 # 100000; 221 # 100000; 876 # 100000; 2699 # 100000;
   6477 # 100000; 12098 # 100000; 17604 # 100000; 19948 # 100000;
   17604 # 100000; 12098 # 100000; 6477 # 100000; 2699 # 100000;
   876 # 100000; 221 # 100000; 44 # 100000; 7 # 100000].

Definition fibroblast : string := "Fibroblast (activated)".

Definition cell (ty ni : string) (pt x y a b : Q) : Cell :=
  mkCell ty ni pt (x, y) [a; b].

Definition toy : AnnData :=
  mkAnnData ["GeneA"%string; "GeneB"%string]
    [ cell fibroblast "Fibrotic Niche" 0 0 0 0 1;
      cell fibroblast "Fibrotic Niche" 1 1 0 2 1;
      cell fibroblast "Fibrotic Niche" 2 2 0 4 0;
      cell fibroblast "Ultraproximal" 0 3 0 1 1;
      cell fibroblast "Ultraproximal" 1 4 0 2 0;
      cell fibroblast "Ultraproximal" 3 5 0 5 1;
      cell fibroblast "Proximal" 0 6 0 0 1;
      cell fibroblast "Proximal" 2 7 0 3 1;
      cell fibroblast "Remote" 0 10 0 1 1;
      cell fibroblast "Remote" 1 12 0 0 1;
      cell "Endothelial" "Remote" 0 11 0 8 0;
      cell "Endothelial" "Fibrotic Niche" 0 1 1 0 0 ].

Definition four_bins : Config := {|
  fibrotic_niches := fibrotic_niches notebook_config;
  remote_niche := remote_niche notebook_config;
  NUM_BINS := 4;
  min_std := min_std notebook_config;
  min_fraction_target := min_fraction_target notebook_config;
  fib_fraction_threshold := fib_fraction_threshold notebook_config;
  early_phase_bins := 2;
  fold_change_threshold := fold_change_threshold notebook_config
|}.

(** ** Stage 4 in the words of the specification

    The fold-change quotient with both means taken over every cell of the
    niches, whatever its type; it is compared with [fc] below. *)

Definition spec_fc_all_cell_types (cfg : Config) (adata : AnnData) (g : string) : fval :=
  match fadd (mean (expr_col adata (in_niche (remote_niche cfg)) g)) eps with
  | Fin d => fdiv (mean (expr_col adata (in_fibrotic cfg) g)) d
  | _ => NaN
  end.

(** ** Nearest neighbours

    [d] is the distance from [p] to a nearest point of [data]. *)

Definition nearest_distance (dist : Q * Q -> Q * Q -> Q) (data : list (Q * Q))
  (p : Q * Q) (d : Q) : Prop :=
  (exists f, In f data /\ d = dist p f) /\ forall f, In f data -> d <= dist p f.

(** A Euclidean distance for the examples: the square root is taken on
    integers, exact when the squared distance is the square of a
    rational. *)
Definition sqrt_floor (q : Q) : Q :=
  inject_Z (Z.sqrt (Qnum q * Z.pos (Qden q))) / inject_Z (Z.pos (Qden q)).

Definition euclid (p q : Q * Q) : Q :=
  sqrt_floor ((fst p - fst q) * (fst p - fst q) + (snd p - snd q) * (snd p - snd q)).

(** ** Early induction in one niche

    Stage 3 in the words of the claim.  [mirror n k] is the sample
    that a signal of [n] samples extended by reflection
    (d c b a | a b c d | d c b a) shows at position [k]: blocks of [n]
    positions alternate between the signal and its mirror image.
    [smoothed_at gw traj i] is sample [i] of the trajectory smoothed
    with the weights [gw], centred on [i].  [derivative_at f x i] is the
    discrete derivative of the samples [f] at the positions [x]:
    one-sided differences at both ends and, inside, the second-order
    difference for unequal spacings.  [slope_defined] says that the
    slope of gene [g] in [niche] can be computed, and [early_rising]
    that moreover the mean of its first [early_phase_bins] samples is
    positive. *)






(** [toy] with a single fibroblast left in the Proximal niche, and with
    none. *)
Definition toy_single : AnnData :=
  mkAnnData (var_names toy)
    (filter (fun c => negb (in_niche "Proximal" c && Qltb 0 (pseudotime c))) (obs toy)).


(** ** Configurations the notebook never checks *)

Definition set_early_phase_bins (cfg : Config) (k : Z) : Config := {|
  fibrotic_niches := fibrotic_niches cfg;
  remote_niche := remote_niche cfg;
  NUM_BINS := NUM_BINS cfg;
  min_std := min_std cfg;
  min_fraction_target := min_fraction_target cfg;
  fib_fraction_threshold := fib_fraction_threshold cfg;
  early_phase_bins := k;
  fold_change_threshold := fold_change_threshold cfg
|}.

Definition set_NUM_BINS (cfg : Config) (n : Z) : Config := {|
  fibrotic_niches := fibrotic_niches cfg;
  remote_niche := remote_niche cfg;
  NUM_BINS := n;
  min_std := min_std cfg;
  min_fraction_target := min_fraction_target cfg;
  fib_fraction_threshold := fib_fraction_threshold cfg;
  early_phase_bins := early_phase_bins cfg;
  fold_change_threshold := fold_change_threshold cfg
|}.

(** Four bins with an early-phase window of seven samples, and no bin at
    all. *)
Definition wide_window : Config := set_early_phase_bins four_bins 7.

Definition no_bins : Config := set_NUM_BINS four_bins 0.

(** [toy] without the fibroblasts of the first fibrotic niche. *)
Definition toy_core_empty : AnnData :=
  mkAnnData (var_names toy)
    (filter (fun c => negb (is_type fibroblast c && in_niche "Fibrotic Niche" c)) (obs toy)).

(** ** Bins

    The bins in the words of the claims.  [linspace_edge lo hi N i] is
    edge [i < N]: [lo] plus [i] times the common width [(hi - lo) / N],
    every operation rounded to a double (numpy divides [i] by [N] first
    when the rounded width is zero).  [in_bin bins b v] says that [v]
    lies in bin [b] of the edges [bins]: the first bin contains its lower
    edge, every bin contains its upper edge. *)

Definition linspace_step (lo hi : Q) (N : Z) : Q :=
  fl64 (fl64 (hi - lo) / inject_Z N).

Definition linspace_edge (lo hi : Q) (N : Z) (i : nat) : Q :=
  if Qeq_bool (linspace_step lo hi N) 0
  then fl64 (fl64 (fl64 (inject_Z (Z.of_nat i) / inject_Z N) * fl64 (hi - lo)) + lo)
  else fl64 (fl64 (inject_Z (Z.of_nat i) * linspace_step lo hi N) + lo).

Definition strictly_increasing (l : list Q) : Prop :=
  forall i j, (i < j < length l)%nat -> nth i l 0 < nth j l 0.

Fixpoint adjacent_lt (l : list Q) : bool :=
  match l with
  | x :: ((y :: _) as r) => Qltb x y && adjacent_lt r
  | _ => true
  end.

Definition in_bin (bins : list Q) (b : nat) (v : Q) : bool :=
  (if (b =? 0)%nat then Qle_bool (nth 0 bins 0) v
   else Qltb (nth b bins 0) v)
  && Qle_bool v (nth (S b) bins 0).

(** ** The figure cells

    The cells of the notebook that call the helpers: the table of
    Figure 6A, the niche proportions of Figure 6B and the pseudotime
    curves of Figures 6C to 6F.  Drawing is left out; what is modelled is
    the data handed to matplotlib. *)

Record Row6A : Type := mkRow6A {
  row_gene : string;
  row_log2_fc_arg : fval;
  row_avg_distance : fval;
  row_fib_fraction : Q
}.

Section Figures.

Variable gauss_weights : list Q.
Variable dist : Q * Q -> Q * Q -> Q.
Variable cfg : Config.

(** [pd.DataFrame({...})] of Figure 6A from four columns: columns of
    different lengths are a [ValueError]. *)
Definition frame6a (genes : list string) (log2fc dists : list fval) (fracs : list Q)
  : result (list Row6A) :=
  if (length log2fc =? length genes)%nat
     && (length dists =? length genes)%nat
     && (length fracs =? length genes)%nat
  then Ok (map (fun t => mkRow6A (fst (fst (fst t))) (snd (fst (fst t)))
                                 (snd (fst t)) (snd t))
               (combine (combine (combine genes log2fc) dists) fracs))
  else Raise ValueError.

(** Section 3 of the notebook up to [df]: nothing is computed when the
    cascade returns no gene.  The [log2_fc] column is kept as the
    argument of [np.log2]. *)
Definition figure6a_table (adata : AnnData) (ct : string)
  : result (option (list Row6A)) :=
  genes <- filter_genes_by_conditions gauss_weights cfg adata ct ;;
  match genes with
  | [] => Ok None
  | _ :: _ =>
      dists <- calc_avg_distance dist cfg adata genes ct ;;
      fracs <- calc_fib_fraction cfg adata genes ct ;;
      let log2fc := map (log2fc_arg cfg adata ct) genes in
      df <- frame6a genes log2fc (map snd dists) (map snd fracs) ;;
      Ok (Some df)
  end.

(** Section 4: for one gene,
    [value_counts(normalize=True).reindex(fibrotic_niches+[remote_niche]).fillna(0)]
    over the cells of any type that express it.  A niche without an
    expressing cell is missing from the counts and filled with 0. *)
Definition niche_percent (adata : AnnData) (g : string) : result (list (string * Q)) :=
  match index_of g (var_names adata) with
  | None => Raise KeyError
  | Some _ =>
      let mask := filter (expressed adata g) (obs adata) in
      Ok (map (fun niche =>
                 let k := count (in_niche niche) mask in
                 (niche, if (k =? 0)%nat then 0
                         else inject_Z (Z.of_nat k) / Qlen mask))
              (fibrotic_niches cfg ++ [remote_niche cfg]))
  end.

(** Section 5: [niche_list] and, for one gene, the curves handed to
    [ax1.plot(ctr, curve)], one per niche that holds an activated
    fibroblast. *)
Definition niche_list : list string :=
  fibrotic_niches cfg ++ ["Intermediate"%string; "Remote"%string].

Fixpoint pseudotime_curves (adata : AnnData) (g : string) (niches : list string)
  : result (list (string * (list Q * list Q))) :=
  match niches with
  | [] => Ok []
  | niche :: rest =>
      let sub := subset adata (fun c => is_type fibroblast c && in_niche niche c) in
      if (n_obs sub =? 0)%nat then pseudotime_curves adata g rest
      else
        gc <- get_grouped_data sub (NUM_BINS cfg) ;;
        match index_of g (var_names adata) with
        | None => Raise KeyError
        | Some j =>
            let curve := gaussian_filter1d gauss_weights (Pandas.column j (fst gc)) in
            curves <- pseudotime_curves adata g rest ;;
            Ok ((niche, (snd gc, curve)) :: curves)
        end
  end.

End Figures.

(** [cfg] with another fold-change threshold. *)
Definition set_fold_change_threshold (cfg : Config) (t : Q) : Config := {|
  fibrotic_niches := fibrotic_niches cfg;
  remote_niche := remote_niche cfg;
  NUM_BINS := NUM_BINS cfg;
  min_std := min_std cfg;
  min_fraction_target := min_fraction_target cfg;
  fib_fraction_threshold := fib_fraction_threshold cfg;
  early_phase_bins := early_phase_bins cfg;
  fold_change_threshold := t
|}.

(** [toy] with its one remote endothelial cell only, besides the
    fibroblasts of the fibrotic niches. *)
Definition toy_no_remote_target : AnnData :=
  mkAnnData (var_names toy)
    (filter (fun c => negb (is_type fibroblast c && in_niche "Remote" c)) (obs toy)).

(** ** Comparisons *)

Lemma Qltb_lt (x y : Q) : Qltb x y = true <-> x < y.
Proof.
  unfold Qltb. rewrite negb_true_iff. split; intro H.
  - apply Qnot_le_lt. intro L. apply Qle_bool_iff in L. congruence.
  - destruct (Qle_bool y x) eqn:E; [|reflexivity].
    apply Qle_bool_iff in E. exfalso. apply (Qlt_not_le _ _ H E).
Qed.

Lemma Qltb_ge (x y : Q) : Qltb x y = false <-> y <= x.
Proof.
  unfold Qltb. rewrite negb_false_iff. apply Qle_bool_iff.
Qed.

Lemma Qeq_bool_false (x y : Q) : Qeq_bool x y = false <-> ~ x == y.
Proof.
  split; intro H.
  - intro E. apply Qeq_bool_iff in E. congruence.
  - destruct (Qeq_bool x y) eqn:E; [|reflexivity].
    apply Qeq_bool_iff in E. contradiction.
Qed.

(** ** Rounding *)

Lemma fl64_eq (x y : Q) : x == y -> fl64 x = fl64 y.
Proof.
  intro H. unfold fl64. rewrite (Qred_complete x y H). reflexivity.
Qed.

Lemma fl64_0 : fl64 0 = 0.
Proof. reflexivity. Qed.

Lemma fl64_zero_step (a d start : Q) :
  fl64 (fl64 (fl64 (a / d) * 0) + start) = fl64 start.
Proof.
  rewrite (fl64_eq (fl64 (a / d) * 0) 0) by ring. rewrite fl64_0.
  apply fl64_eq. ring.
Qed.

(** ** Exceptions *)

Lemma bind_Ok {A B : Type} (c : result A) (k : A -> result B) (b : B) :
  bind c k = Ok b -> exists a, c = Ok a /\ k a = Ok b.
Proof.
  destruct c as [a|e]; simpl; intro H; [exists a; auto|discriminate].
Qed.

Lemma bind_raises {A B : Type} (c : result A) (k : A -> result B) :
  raises c -> raises (bind c k).
Proof. intros [e ->]. exists e. reflexivity. Qed.

(** ** Lists *)

Lemma subseq_filter {A : Type} (p : A -> bool) (l : list A) : subseq (filter p l) l.
Proof.
  induction l as [|x l IH]; simpl; [constructor|].
  destruct (p x); [apply subseq_keep|apply subseq_skip]; exact IH.
Qed.

Lemma subseq_trans {A : Type} (l1 l2 l3 : list A) :
  subseq l1 l2 -> subseq l2 l3 -> subseq l1 l3.
Proof.
  intros H12 H23. revert l1 H12.
  induction H23 as [|x l2 l3 H IH|x l2 l3 H IH]; intros l1 H12.
  - exact H12.
  - constructor. apply IH. exact H12.
  - inversion H12; subst.
    + apply subseq_skip. apply IH. assumption.
    + apply subseq_keep. apply IH. assumption.
Qed.

Lemma map_nth_default {A B : Type} (f : A -> B) (l : list A) (d : A) (d' : B) (i : nat) :
  (i < length l)%nat -> nth i (map f l) d' = f (nth i l d).
Proof.
  intro H. rewrite (nth_indep _ d' (f d)) by (rewrite length_map; exact H).
  apply map_nth.
Qed.

Lemma filter_filter {A : Type} (p q : A -> bool) (l : list A) :
  filter p (filter q l) = filter (fun x => q x && p x) l.
Proof.
  induction l as [|x l IH]; simpl; [reflexivity|].
  destruct (q x); simpl; [destruct (p x)|]; rewrite ?IH; reflexivity.
Qed.

(** ** The cascade only removes genes *)

Lemma stage3_subseq gw cfg adata ct genes2 genes3 :
  stage3 gw cfg adata ct genes2 = Ok genes3 -> subseq genes3 genes2.
Proof.
  revert genes3. induction genes2 as [|g rest IH]; simpl; intros genes3 H.
  - inversion H. constructor.
  - destruct (stage3_keep gw cfg adata ct g) as [ok|e]; simpl in H; [|discriminate].
    destruct (stage3 gw cfg adata ct rest) as [l|e]; simpl in H; [|discriminate].
    inversion H; subst.
    destruct ok; [apply subseq_keep|apply subseq_skip]; apply IH; reflexivity.
Qed.

(** C4.  Whenever the cascade returns a gene list, that list is an
    order-preserving sublist of the Stage-3 survivors, which are one of
    the Stage-2 survivors, which are one of the Stage-1 survivors, which
    are one of the columns of the table: no stage re-admits a gene and
    the output keeps the Stage-1 order. *)
Theorem cascade_output_sublist_of_stage1 gw cfg adata ct passed :
  filter_genes_by_conditions gw cfg adata ct = Ok passed ->
  exists genes3,
    stage3 gw cfg adata ct (stage2 cfg adata ct (stage1 cfg adata ct)) = Ok genes3
    /\ passed = stage4 cfg adata ct genes3
    /\ subseq passed genes3
    /\ subseq genes3 (stage2 cfg adata ct (stage1 cfg adata ct))
    /\ subseq (stage2 cfg adata ct (stage1 cfg adata ct)) (stage1 cfg adata ct)
    /\ subseq passed (stage1 cfg adata ct)
    /\ subseq (stage1 cfg adata ct) (var_names adata).
Proof.
  unfold filter_genes_by_conditions. intro H.
  destruct (stage3 gw cfg adata ct (stage2 cfg adata ct (stage1 cfg adata ct)))
    as [genes3|e] eqn:E3; simpl in H; [|discriminate].
  inversion H; subst passed. exists genes3.
  pose proof (stage3_subseq _ _ _ _ _ _ E3) as S3.
  assert (S4 : subseq (stage4 cfg adata ct genes3) genes3) by apply subseq_filter.
  assert (S2 : subseq (stage2 cfg adata ct (stage1 cfg adata ct)) (stage1 cfg adata ct))
    by apply subseq_filter.
  repeat split; auto.
  - eapply subseq_trans; [exact S4|]. eapply subseq_trans; eassumption.
  - apply subseq_filter.
Qed.

Lemma cascade_output_sublist_of_stage1_witness :
  filter_genes_by_conditions kernel5 four_bins toy fibroblast = Ok ["GeneA"%string]
  /\ subseq ["GeneA"%string] (stage1 four_bins toy fibroblast).
Proof.
  assert (H : filter_genes_by_conditions kernel5 four_bins toy fibroblast
              = Ok ["GeneA"%string]) by (vm_compute; reflexivity).
  split; [exact H|].
  destruct (cascade_output_sublist_of_stage1 _ _ _ _ _ H) as (g3 & _ & _ & _ & _ & _ & S & _).
  exact S.
Defined.

(** ** Sums and means *)

Lemma Qlen_pos {A : Type} (x : A) (l : list A) : 0 < Qlen (x :: l).
Proof. unfold Qlen, Qlt. simpl. lia. Qed.

Lemma Qlen_nonneg {A : Type} (l : list A) : 0 <= Qlen l.
Proof. unfold Qlen, Qle. simpl. lia. Qed.

Lemma Qsum_cons (x : Q) (xs : list Q) : Qsum (x :: xs) = x + Qsum xs.
Proof. reflexivity. Qed.

Lemma Qsum_nonneg (xs : list Q) : Forall (fun x => 0 <= x) xs -> 0 <= Qsum xs.
Proof.
  induction 1 as [|x xs Hx _ IH]; [apply Qle_refl|rewrite Qsum_cons; lra].
Qed.

Lemma Qsum_zero_all_zero (xs : list Q) :
  Forall (fun x => 0 <= x) xs -> Qsum xs == 0 ->
  forallb (fun v => Qeq_bool v 0) xs = true.
Proof.
  induction 1 as [|x xs Hx Hxs IH]; intro S; [reflexivity|].
  pose proof (Qsum_nonneg xs Hxs) as N. rewrite Qsum_cons in S.
  cbn [forallb]. apply andb_true_iff. split.
  - apply Qeq_bool_iff. lra.
  - apply IH. lra.
Qed.

Lemma all_zero_Qsum (xs : list Q) :
  forallb (fun v => Qeq_bool v 0) xs = true -> Qsum xs == 0.
Proof.
  induction xs as [|x xs IH]; cbn [forallb]; intro H; [reflexivity|].
  apply andb_true_iff in H. destruct H as [Hx Hxs].
  apply Qeq_bool_iff in Hx. rewrite Qsum_cons, Hx, (IH Hxs). reflexivity.
Qed.

Lemma Qdiv_zero_iff (x y : Q) : 0 < y -> (x / y == 0 <-> x == 0).
Proof.
  intro Hy. assert (Hy' : ~ y == 0) by lra. split; intro H.
  - rewrite <- (Qmult_div_r x y Hy'). rewrite H. ring.
  - rewrite H. unfold Qdiv. ring.
Qed.

Lemma mean_zero_iff (xs : list Q) (r : Q) :
  mean xs = Fin r -> (r == 0 <-> Qsum xs == 0).
Proof.
  destruct xs as [|x xs]; simpl; intro H; [discriminate|].
  inversion H; subst r. apply Qdiv_zero_iff. apply Qlen_pos.
Qed.

Lemma mean_nonneg (xs : list Q) (r : Q) :
  Forall (fun x => 0 <= x) xs -> mean xs = Fin r -> 0 <= r.
Proof.
  intros N H. destruct xs as [|x xs]; simpl in H; [discriminate|].
  inversion H; subst r.
  apply Qle_shift_div_l; [apply Qlen_pos|].
  rewrite Qmult_0_l. apply (Qsum_nonneg _ N).
Qed.

Lemma expr_col_Forall cfg adata ct g (P : Q -> Prop) :
  (forall c, In c (obs adata) -> remm cfg ct c = true -> P (expr (var_names adata) c g)) ->
  Forall P (expr_col adata (remm cfg ct) g).
Proof.
  intro H. unfold expr_col. apply Forall_forall. intros v Hv.
  apply in_map_iff in Hv. destruct Hv as (c & <- & Hc).
  apply filter_In in Hc. destruct Hc as [Hin Hm]. apply H; assumption.
Qed.

(** ** Stage 4 *)

(** C1, as the code has it.  The two Stage-4 populations are cut down to
    the target cell type: the columns averaged under [fibm] and [remm]
    are those of the target cells of the fibrotic niches and of the
    remote niche, so the quotient and the decision are what the
    all-cell-type wording gives on the table stripped of every cell of
    another type. *)
Theorem stage4_restricted_to_target_cell_type cfg adata ct g :
  expr_col adata (fibm cfg ct) g
    = expr_col (subset adata (is_type ct)) (in_fibrotic cfg) g
  /\ expr_col adata (remm cfg ct) g
    = expr_col (subset adata (is_type ct)) (in_niche (remote_niche cfg)) g
  /\ fc cfg adata ct g = spec_fc_all_cell_types cfg (subset adata (is_type ct)) g
  /\ stage4_keep cfg adata ct g = stage4_keep cfg (subset adata (is_type ct)) ct g.
Proof.
  assert (F : expr_col adata (fibm cfg ct) g
              = expr_col (subset adata (is_type ct)) (in_fibrotic cfg) g).
  { unfold expr_col, subset, fibm. simpl. rewrite filter_filter. reflexivity. }
  assert (R : expr_col adata (remm cfg ct) g
              = expr_col (subset adata (is_type ct)) (in_niche (remote_niche cfg)) g).
  { unfold expr_col, subset, remm. simpl. rewrite filter_filter. reflexivity. }
  assert (F' : expr_col (subset adata (is_type ct)) (fibm cfg ct) g
               = expr_col adata (fibm cfg ct) g).
  { unfold expr_col, subset, fibm. simpl. rewrite filter_filter.
    f_equal. apply filter_ext. intro c. destruct (is_type ct c); reflexivity. }
  assert (R' : expr_col (subset adata (is_type ct)) (remm cfg ct) g
               = expr_col adata (remm cfg ct) g).
  { unfold expr_col, subset, remm. simpl. rewrite filter_filter.
    f_equal. apply filter_ext. intro c. destruct (is_type ct c); reflexivity. }
  repeat split; try assumption.
  - unfold fc, spec_fc_all_cell_types. rewrite F, R. reflexivity.
  - unfold stage4_keep, fc. rewrite F', R'. reflexivity.
Qed.

(** C1 as stated fails on [toy]: GeneA survives Stage 3, the fibrotic
    mean of the fold-change test is 17/8 (eight fibroblasts) and not the
    17/9 of all nine cells of the fibrotic niches, and the gene is kept
    although the quotient over all cell types is below the threshold. *)
Lemma stage4_not_over_all_cell_types :
  stage3 kernel5 four_bins toy fibroblast
    (stage2 four_bins toy fibroblast (stage1 four_bins toy fibroblast))
    = Ok ["GeneA"%string]
  /\ mean (expr_col toy (fibm four_bins fibroblast) "GeneA") = Fin ((17 # 1) / (8 # 1))
  /\ mean (expr_col toy (in_fibrotic four_bins) "GeneA") = Fin ((17 # 1) / (9 # 1))
  /\ fc four_bins toy fibroblast "GeneA" <> spec_fc_all_cell_types four_bins toy "GeneA"
  /\ stage4_keep four_bins toy fibroblast "GeneA" = true
  /\ fgt (spec_fc_all_cell_types four_bins toy "GeneA")
         (fold_change_threshold four_bins) = false.
Proof.
  repeat split; try (vm_compute; reflexivity).
  vm_compute. discriminate.
Qed.

Lemma stage4_keep_true_iff cfg adata ct g :
  (forall c, In c (obs adata) -> remm cfg ct c = true ->
             0 <= expr (var_names adata) c g) ->
  (stage4_keep cfg adata ct g = true
   <-> exists r f,
         mean (expr_col adata (remm cfg ct) g) = Fin r /\ ~ r == 0
         /\ mean (expr_col adata (fibm cfg ct) g) = Fin f
         /\ fc cfg adata ct g = Fin (f / (r + eps))
         /\ fold_change_threshold cfg < f / (r + eps)).
Proof.
  intro N. apply (expr_col_Forall cfg adata ct g (fun x => 0 <= x)) in N.
  assert (D : forall r, mean (expr_col adata (remm cfg ct) g) = Fin r ->
              Qeq_bool (r + eps) 0 = false).
  { intros r Hr. apply Qeq_bool_false. pose proof (mean_nonneg _ _ N Hr) as P.
    unfold eps. intro E. assert (0 < 1 # 1000000000) by reflexivity. lra. }
  unfold stage4_keep. split.
  - intro K.
    destruct (forallb _ (expr_col adata (remm cfg ct) g)) eqn:Z; [discriminate|].
    destruct (mean (expr_col adata (remm cfg ct) g)) as [r| | |] eqn:Hr;
      try (destruct (expr_col adata (remm cfg ct) g); discriminate).
    assert (Hnz : ~ r == 0).
    { intro Hz. rewrite (Qsum_zero_all_zero _ N) in Z; [discriminate|].
      apply (mean_zero_iff _ _ Hr). exact Hz. }
    destruct (mean (expr_col adata (fibm cfg ct) g)) as [f| | |] eqn:Hf;
      try (destruct (expr_col adata (fibm cfg ct) g); discriminate).
    + assert (FC : fc cfg adata ct g = Fin (f / (r + eps))).
      { unfold fc. rewrite Hr, Hf. cbn [fadd fdiv]. rewrite (D r eq_refl). reflexivity. }
      exists r, f. repeat split; try assumption.
      rewrite FC in K. cbn [fgt] in K. apply Qltb_lt. exact K.
    + unfold fc in K. rewrite Hr, Hf in K. discriminate.
  - intros (r & f & Hr & Hnz & Hf & FC & T).
    assert (Z : forallb (fun v => Qeq_bool v 0) (expr_col adata (remm cfg ct) g) = false).
    { destruct (forallb _ _) eqn:E; [|reflexivity].
      exfalso. apply Hnz. apply (mean_zero_iff _ _ Hr). apply all_zero_Qsum. exact E. }
    rewrite Z, FC. cbn [fgt]. apply Qltb_lt. exact T.
Qed.

Lemma all_cells_zero_target_zero cfg adata ct g :
  forallb (fun v => Qeq_bool v 0) (expr_col adata (in_niche (remote_niche cfg)) g) = true ->
  forallb (fun v => Qeq_bool v 0) (expr_col adata (remm cfg ct) g) = true.
Proof.
  intro Z. apply forallb_forall. intros v Hv. unfold expr_col in Hv.
  apply in_map_iff in Hv. destruct Hv as (c & <- & Hc).
  apply filter_In in Hc. destruct Hc as [Ic Mc].
  unfold remm in Mc. apply andb_true_iff in Mc. destruct Mc as [_ Mc].
  apply (proj1 (forallb_forall _ _) Z). unfold expr_col.
  apply in_map_iff. exists c. split; [reflexivity|].
  apply filter_In. split; assumption.
Qed.

(** C5 read with the means of C1, over all cells of the niches, fails on
    [toy]: the remote mean of GeneA over all cells is 3, not zero, the
    quotient (17/9) / (3 + 1e-9) is below the threshold 2, and the gene
    is kept. *)
Lemma stage4_keeps_gene_below_all_cell_ratio :
  filter_genes_by_conditions kernel5 four_bins toy fibroblast = Ok ["GeneA"%string]
  /\ In "GeneA"%string (stage4 four_bins toy fibroblast ["GeneA"%string])
  /\ mean (expr_col toy (in_niche (remote_niche four_bins)) "GeneA") = Fin ((9 # 1) / (3 # 1))
  /\ spec_fc_all_cell_types four_bins toy "GeneA"
     = Fin (((17 # 1) / (9 # 1)) / ((9 # 1) / (3 # 1) + eps))
  /\ ~ fold_change_threshold four_bins < ((17 # 1) / (9 # 1)) / ((9 # 1) / (3 # 1) + eps).
Proof.
  split; [vm_compute; reflexivity|]. split; [vm_compute; left; reflexivity|].
  split; [vm_compute; reflexivity|]. split; [vm_compute; reflexivity|].
  vm_compute. discriminate.
Qed.

(** C5, as the code has it: the means are taken over the cells of the
    target type.  With non-negative expression values in the remote
    population, Stage 4 returns, in their order, exactly the genes of
    its input whose remote mean is not zero and whose quotient, the
    fibrotic mean over the remote mean plus 1e-9, is above the
    threshold.  So a gene whose remote mean is zero is not returned
    whatever its fibrotic mean, nor is a gene with no remote or no
    fibrotic target cell (a NaN mean), nor a gene whose mean over all
    cells of the remote niche is zero; and every gene that the cascade
    returns has a non-zero remote mean and a quotient above the
    threshold. *)
Theorem stage4_fold_change_guard cfg adata ct genes3 g :
  (forall c, In c (obs adata) -> remm cfg ct c = true ->
             0 <= expr (var_names adata) c g) ->
  (In g (stage4 cfg adata ct genes3)
   <-> In g genes3
       /\ exists r f,
            mean (expr_col adata (remm cfg ct) g) = Fin r /\ ~ r == 0
            /\ mean (expr_col adata (fibm cfg ct) g) = Fin f
            /\ fc cfg adata ct g = Fin (f / (r + eps))
            /\ fold_change_threshold cfg < f / (r + eps))
  /\ subseq (stage4 cfg adata ct genes3) genes3
  /\ (forall r, mean (expr_col adata (remm cfg ct) g) = Fin r -> r == 0 ->
                ~ In g (stage4 cfg adata ct genes3))
  /\ (forall r f, mean (expr_col adata (remm cfg ct) g) = Fin r -> ~ r == 0 ->
                  mean (expr_col adata (fibm cfg ct) g) = Fin f ->
                  fc cfg adata ct g = Fin (f / (r + eps))
                  /\ (stage4_keep cfg adata ct g = true
                      <-> fold_change_threshold cfg < f / (r + eps)))
  /\ (mean (expr_col adata (remm cfg ct) g) = NaN ->
      ~ In g (stage4 cfg adata ct genes3))
  /\ (mean (expr_col adata (fibm cfg ct) g) = NaN ->
      ~ In g (stage4 cfg adata ct genes3))
  /\ ((forall c, In c (obs adata) -> in_niche (remote_niche cfg) c = true ->
                 0 <= expr (var_names adata) c g) ->
      forall r, mean (expr_col adata (in_niche (remote_niche cfg)) g) = Fin r ->
                r == 0 -> ~ In g (stage4 cfg adata ct genes3))
  /\ (forall gw passed,
        filter_genes_by_conditions gw cfg adata ct = Ok passed -> In g passed ->
        exists r f,
          mean (expr_col adata (remm cfg ct) g) = Fin r /\ ~ r == 0
          /\ mean (expr_col adata (fibm cfg ct) g) = Fin f
          /\ fold_change_threshold cfg < f / (r + eps)).
Proof.
  intro N. pose proof (stage4_keep_true_iff cfg adata ct g N) as K.
  assert (I : In g (stage4 cfg adata ct genes3)
              <-> In g genes3 /\ stage4_keep cfg adata ct g = true).
  { unfold stage4. apply filter_In. }
  assert (U : forall r f r' f',
            mean (expr_col adata (remm cfg ct) g) = Fin r ->
            mean (expr_col adata (fibm cfg ct) g) = Fin f ->
            mean (expr_col adata (remm cfg ct) g) = Fin r' ->
            mean (expr_col adata (fibm cfg ct) g) = Fin f' -> r' = r /\ f' = f).
  { intros r f r' f' Hr Hf Hr' Hf'. split; congruence. }
  split; [rewrite I, K; reflexivity|]. split; [apply subseq_filter|]. split; [|split].
  - intros r Hr Hz H. apply I in H. destruct H as [_ H]. apply K in H.
    destruct H as (r' & f' & Hr' & Hnz & _). apply Hnz.
    assert (r' = r) by congruence. subst r'. exact Hz.
  - intros r f Hr Hnz Hf.
    assert (FC : fc cfg adata ct g = Fin (f / (r + eps))).
    { apply (expr_col_Forall cfg adata ct g (fun x => 0 <= x)) in N.
      pose proof (mean_nonneg _ _ N Hr) as P.
      assert (D : Qeq_bool (r + eps) 0 = false).
      { apply Qeq_bool_false. unfold eps. intro E.
        assert (0 < 1 # 1000000000) by reflexivity. lra. }
      unfold fc. rewrite Hr, Hf. cbn [fadd fdiv]. rewrite D. reflexivity. }
    split; [exact FC|]. rewrite K. split.
    + intros (r' & f' & Hr' & _ & Hf' & _ & T).
      destruct (U r f r' f' Hr Hf Hr' Hf') as [-> ->]. exact T.
    + intro T. exists r, f. repeat split; assumption.
  - split; [|split; [|split]].
    + intros Hr H. apply I in H. destruct H as [_ H]. apply K in H.
      destruct H as (r' & f' & Hr' & _). congruence.
    + intros Hf H. apply I in H. destruct H as [_ H]. apply K in H.
      destruct H as (r' & f' & _ & _ & Hf' & _). congruence.
    + intros NA r Hr Hz H. apply I in H. destruct H as [_ H].
      unfold stage4_keep in H.
      rewrite (all_cells_zero_target_zero cfg adata ct g) in H; [discriminate|].
      apply Qsum_zero_all_zero; [|apply (mean_zero_iff _ _ Hr); exact Hz].
      unfold expr_col. apply Forall_forall. intros v Hv.
      apply in_map_iff in Hv. destruct Hv as (c & <- & Hc).
      apply filter_In in Hc. destruct Hc as [Ic Mc]. apply NA; assumption.
    + intros gw passed H Hg. unfold filter_genes_by_conditions in H.
      apply bind_Ok in H. destruct H as (g3 & _ & H). injection H as <-.
      apply filter_In in Hg. destruct Hg as [_ Hg]. apply K in Hg.
      destruct Hg as (r & f & Hr & Hnz & Hf & _ & T). exists r, f. repeat split; assumption.
Qed.

Lemma stage4_fold_change_guard_witness :
  In "GeneA"%string ["GeneA"%string; "GeneB"%string]
  /\ exists r f,
       mean (expr_col toy (remm four_bins fibroblast) "GeneA") = Fin r /\ ~ r == 0
       /\ mean (expr_col toy (fibm four_bins fibroblast) "GeneA") = Fin f
       /\ fc four_bins toy fibroblast "GeneA" = Fin (f / (r + eps))
       /\ fold_change_threshold four_bins < f / (r + eps).
Proof.
  refine (proj1 (proj1 (stage4_fold_change_guard four_bins toy fibroblast
                          ["GeneA"%string; "GeneB"%string] "GeneA"%string _)) _).
  - intros c Hc _. simpl in Hc.
    repeat (destruct Hc as [<-|Hc]; [vm_compute; discriminate|]). destruct Hc.
  - vm_compute. left. reflexivity.
Defined.

(** ** Series built from a dict *)

Lemma dict_get_set_same {V : Type} (d : list (string * V)) (k : string) (v : V) :
  dict_get (dict_set d k v) k = Some v.
Proof.
  induction d as [|[k' v'] r IH]; simpl.
  - rewrite String.eqb_refl. reflexivity.
  - destruct (String.eqb k k') eqn:E; simpl; rewrite E; [reflexivity|exact IH].
Qed.

Lemma dict_get_set_other {V : Type} (d : list (string * V)) (k k2 : string) (v : V) :
  k2 <> k -> dict_get (dict_set d k v) k2 = dict_get d k2.
Proof.
  intro N. induction d as [|[k' v'] r IH]; simpl.
  - apply String.eqb_neq in N. rewrite N. reflexivity.
  - destruct (String.eqb k k') eqn:E; simpl.
    + apply String.eqb_eq in E. subst k'.
      apply String.eqb_neq in N. rewrite N. reflexivity.
    + rewrite IH. reflexivity.
Qed.

Lemma series_of_get {V : Type} (f : string -> result V) (val : string -> V)
  (genes : list string) :
  (forall g, In g genes -> f g = Ok (val g)) ->
  forall acc, exists series,
    series_of f genes acc = Ok series
    /\ (forall g, In g genes -> dict_get series g = Some (val g))
    /\ (forall k, ~ In k genes -> dict_get series k = dict_get acc k).
Proof.
  induction genes as [|g rest IH]; intros Hf acc; simpl.
  - exists acc. repeat split; intros; tauto.
  - rewrite (Hf g (or_introl eq_refl)). simpl.
    destruct (IH (fun g' H => Hf g' (or_intror H)) (dict_set acc g (val g)))
      as (series & E & Hin & Hout).
    exists series. split; [exact E|]. split.
    + intros g' [->|Hg'].
      * destruct (in_dec string_dec g' rest) as [I|NI]; [apply Hin; exact I|].
        rewrite (Hout g' NI). apply dict_get_set_same.
      * apply Hin. exact Hg'.
    + intros k Hk. rewrite Hout by tauto.
      apply dict_get_set_other. intro E'. apply Hk. left. congruence.
Qed.

Lemma index_of_In (g : string) (names : list string) :
  In g names -> exists j, index_of g names = Some j.
Proof.
  induction names as [|n r IH]; simpl; [tauto|]. intro H.
  destruct (String.eqb g n) eqn:E; [eexists; reflexivity|].
  destruct H as [->|H]; [rewrite String.eqb_refl in E; discriminate|].
  destruct (IH H) as [j ->]. eexists. reflexivity.
Qed.

Lemma existsb_filter {A : Type} (p : A -> bool) (l : list A) :
  existsb p l = negb (match filter p l with [] => true | _ :: _ => false end).
Proof.
  induction l as [|x l IH]; simpl; [reflexivity|].
  destruct (p x); simpl; [reflexivity|exact IH].
Qed.

Lemma count_zero_mono {A : Type} (p q : A -> bool) (l : list A) :
  (forall x, q x = true -> p x = true) -> count p l = 0%nat -> count q l = 0%nat.
Proof.
  intro H. unfold count. induction l as [|x l IH]; simpl; [reflexivity|].
  destruct (p x) eqn:P; simpl; [discriminate|]. intro Z0.
  destruct (q x) eqn:Q0; [rewrite (H x Q0) in P; discriminate|apply IH; exact Z0].
Qed.

(** ** The niche fraction scorer *)

(** C9.  For genes of the table, the series of [calc_fib_fraction] holds
    for every gene the number of target cells that express it and lie in
    a fibrotic niche over the number of target cells that express it,
    floored at 1; with no expressing target cell the value is 0 and
    nothing is raised. *)
Theorem calc_fib_fraction_value cfg adata genes ct :
  (forall g, In g genes -> In g (var_names adata)) ->
  exists series,
    calc_fib_fraction cfg adata genes ct = Ok series
    /\ forall g, In g genes ->
       let expressing :=
         count (fun c => is_type ct c && expressed adata g c) (obs adata) in
       let both :=
         count (fun c => is_type ct c && (expressed adata g c && in_fibrotic cfg c))
               (obs adata) in
       exists q,
         dict_get series g = Some q
         /\ q = inject_Z (Z.of_nat both) / inject_Z (Z.of_nat (Nat.max expressing 1))
         /\ (expressing = 0%nat -> q == 0).
Proof.
  intro Hg.
  set (val := fun g =>
    inject_Z (Z.of_nat (count (fun c => is_type ct c && (expressed adata g c && in_fibrotic cfg c))
                              (obs adata)))
    / inject_Z (Z.of_nat (Nat.max (count (fun c => is_type ct c && expressed adata g c)
                                         (obs adata)) 1))).
  destruct (series_of_get (fib_fraction cfg adata ct) val genes) with (acc := @nil (string * Q))
    as (series & E & Hin & _).
  - intros g I. unfold fib_fraction.
    destruct (index_of_In g _ (Hg g I)) as [j ->].
    unfold val, count. rewrite !filter_filter. reflexivity.
  - exists series. split; [exact E|]. intros g I expressing both.
    exists (val g). split; [apply Hin; exact I|]. split; [reflexivity|].
    intro Z0. unfold val. fold expressing both.
    assert (B : both = 0%nat).
    { apply (count_zero_mono (fun c => is_type ct c && expressed adata g c)); [|exact Z0].
      intros c. destruct (is_type ct c), (expressed adata g c); simpl; congruence. }
    rewrite B, Z0. reflexivity.
Qed.

Lemma calc_fib_fraction_value_witness :
  exists series,
    calc_fib_fraction four_bins toy ["GeneA"%string; "GeneB"%string] fibroblast = Ok series
    /\ dict_get series "GeneA"%string = Some ((6 # 1) / (7 # 1)).
Proof.
  destruct (calc_fib_fraction_value four_bins toy ["GeneA"%string; "GeneB"%string] fibroblast)
    as (series & E & H).
  - intros g [<-|[<-|[]]]; simpl; tauto.
  - exists series. split; [exact E|].
    destruct (H "GeneA"%string (or_introl eq_refl)) as (q & G & -> & _).
    exact G.
Defined.

(** ** The spatial distance scorer *)

Lemma Qmin_cases (x y : Q) : Qmin x y = x \/ Qmin x y = y.
Proof.
  unfold Qmin, GenericMinMax.gmin. destruct (x ?= y); auto.
Qed.

Lemma fold_min_spec (l : list Q) (x : Q) :
  (fold_left Qmin l x = x \/ In (fold_left Qmin l x) l)
  /\ fold_left Qmin l x <= x
  /\ forall y, In y l -> fold_left Qmin l x <= y.
Proof.
  revert x. induction l as [|a l IH]; intro x; simpl.
  - split; [left; reflexivity|]. split; [apply Qle_refl|tauto].
  - destruct (IH (Qmin x a)) as (Hin & Hle & Hall).
    pose proof (Q.le_min_l x a) as L1. pose proof (Q.le_min_r x a) as L2.
    split; [|split].
    + destruct Hin as [E|I]; [|right; right; exact I].
      destruct (Qmin_cases x a) as [C|C]; rewrite C in E; [left|right; left]; congruence.
    + eapply Qle_trans; eassumption.
    + intros y [<-|Hy]; [eapply Qle_trans; eassumption|apply Hall; exact Hy].
Qed.

Lemma query_is_nearest dist (d0 : Q * Q) (r : list (Q * Q)) (p : Q * Q) :
  nearest_distance dist (d0 :: r) p (fold_left Qmin (map (dist p) r) (dist p d0)).
Proof.
  destruct (fold_min_spec (map (dist p) r) (dist p d0)) as (Hin & Hle & Hall).
  split.
  - destruct Hin as [E|I].
    + exists d0. split; [left; reflexivity|exact E].
    + apply in_map_iff in I. destruct I as (f & E & If).
      exists f. split; [right; exact If|symmetry; exact E].
  - intros f [<-|If]; [exact Hle|]. apply Hall. apply in_map. exact If.
Qed.

Lemma Forall2_map_r {A B : Type} (P : A -> B -> Prop) (h : A -> B) (l : list A) :
  (forall a, P a (h a)) -> Forall2 P l (map h l).
Proof.
  intro H. induction l; simpl; constructor; auto.
Qed.

(** C7.  For genes of the table, the series of [calc_avg_distance] holds
    NaN (never 0) for a gene that no target cell expresses; for a gene
    with expressing target cells, and at least one cell in the fibrotic
    niches to build the tree from, it holds the mean over those cells of
    the distance to a nearest cell of the fibrotic niches. *)
Theorem calc_avg_distance_value dist cfg adata genes ct :
  (forall g, In g genes -> In g (var_names adata)) ->
  exists series,
    calc_avg_distance dist cfg adata genes ct = Ok series
    /\ forall g, In g genes ->
       let cells := filter (fun c => is_type ct c && expressed adata g c) (obs adata) in
       let coords_f := map spatial (filter (in_fibrotic cfg) (obs adata)) in
       (cells = [] -> dict_get series g = Some NaN)
       /\ (cells <> [] -> coords_f <> [] ->
           exists ds,
             Forall2 (fun c d => nearest_distance dist coords_f (spatial c) d) cells ds
             /\ dict_get series g = Some (Fin (Qsum ds / Qlen ds))).
Proof.
  intro Hg.
  set (val := fun g =>
    if existsb (expressed adata g) (filter (is_type ct) (obs adata))
    then Scipy.query_mean dist (map spatial (filter (in_fibrotic cfg) (obs adata)))
           (map spatial (filter (expressed adata g) (filter (is_type ct) (obs adata))))
    else NaN).
  destruct (series_of_get (avg_distance dist cfg adata ct) val genes)
    with (acc := @nil (string * fval)) as (series & E & Hin & _).
  - intros g I. unfold avg_distance.
    destruct (index_of_In g _ (Hg g I)) as [j ->].
    unfold val. destruct (existsb _ _); reflexivity.
  - exists series. split; [exact E|]. intros g I cells coords_f.
    rewrite (Hin g I). unfold val. rewrite existsb_filter, filter_filter.
    fold cells. fold coords_f. split.
    + intros ->. reflexivity.
    + intros NE NF. destruct cells as [|c cs]; [congruence|].
      destruct coords_f as [|d0 r]; [congruence|].
      exists (map (fun p => fold_left Qmin (map (dist p) r) (dist p d0))
                  (map spatial (c :: cs))).
      split.
      * rewrite map_map. apply Forall2_map_r. intro a. apply query_is_nearest.
      * reflexivity.
Qed.

Lemma calc_avg_distance_value_witness :
  exists series,
    calc_avg_distance euclid four_bins toy ["GeneA"%string] fibroblast = Ok series
    /\ exists ds,
         Forall2 (fun c d =>
                    nearest_distance euclid
                      (map spatial (filter (in_fibrotic four_bins) (obs toy)))
                      (spatial c) d)
                 (filter (fun c => is_type fibroblast c && expressed toy "GeneA" c) (obs toy))
                 ds
         /\ dict_get series "GeneA"%string = Some (Fin (Qsum ds / Qlen ds)).
Proof.
  destruct (calc_avg_distance_value euclid four_bins toy ["GeneA"%string] fibroblast)
    as (series & E & H).
  - intros g [<-|[]]; simpl; tauto.
  - exists series. split; [exact E|].
    destruct (H "GeneA"%string (or_introl eq_refl)) as (_ & D).
    apply D; vm_compute; discriminate.
Defined.

(** ** Shapes of the intermediate arrays *)

Lemma diff_length (a : list Q) : length (Numpy.diff a) = (length a - 1)%nat.
Proof.
  induction a as [|x [|y r] IH]; try reflexivity.
  change (Numpy.diff (x :: y :: r)) with ((y - x) :: Numpy.diff (y :: r)).
  cbn [length] in *. lia.
Qed.

Lemma gradient_short (f x : list Q) :
  (length f < 2)%nat -> raises (Numpy.gradient f x).
Proof.
  intro H. unfold Numpy.gradient.
  destruct (length x =? length f)%nat eqn:L; cbn [negb]; [|exists ValueError; reflexivity].
  apply Nat.eqb_eq in L. pose proof (diff_length x) as D.
  destruct (Numpy.diff x) as [|h0 r]; [exists IndexError; reflexivity|].
  cbn [length] in D. lia.
Qed.

Lemma gradient_Ok_cons (f x grad : list Q) :
  Numpy.gradient f x = Ok grad -> exists d r, grad = d :: r.
Proof.
  unfold Numpy.gradient. destruct (negb _); [discriminate|].
  destruct (Numpy.diff x) as [|h0 dr]; [discriminate|].
  destruct f as [|f0 [|f1 r]]; try discriminate.
  intro H. inversion H. eauto.
Qed.

Lemma correlate1d_length (input w : list Q) :
  length (Scipy.correlate1d input w) = length input.
Proof. unfold Scipy.correlate1d. rewrite length_map, length_seq. reflexivity. Qed.

Lemma column_length (j : nat) (rows : list (list Q)) :
  length (Pandas.column j rows) = length rows.
Proof. apply length_map. Qed.

Lemma get_grouped_data_rows sub N grp ctr :
  get_grouped_data sub N = Ok (grp, ctr) -> length grp = Z.to_nat N.
Proof.
  unfold get_grouped_data. intro H. apply bind_Ok in H.
  destruct H as (bp & _ & H). inversion H. rewrite length_map, length_seq. reflexivity.
Qed.

Lemma count_zero_iff {A : Type} (p : A -> bool) (l : list A) :
  (count p l =? 0)%nat = true <-> filter p l = [].
Proof.
  unfold count. rewrite Nat.eqb_eq. apply length_zero_iff_nil.
Qed.

Lemma slice_to_firstn {A : Type} (a : list A) (k : Z) :
  (1 <= k)%Z -> Numpy.slice_to a k = firstn (Z.to_nat k) a.
Proof.
  intro H. unfold Numpy.slice_to.
  destruct (k <? 0)%Z eqn:E; [apply Z.ltb_lt in E; lia|reflexivity].
Qed.

Lemma mean_cons (x : Q) (xs : list Q) :
  mean (x :: xs) = Fin (Qsum (x :: xs) / Qlen (x :: xs)).
Proof. reflexivity. Qed.

(** ** Stage 3 *)

Lemma stage3_niches_app gw cfg adata ct g (pre rest : list string) :
  stage3_niches gw cfg adata ct g (pre ++ rest)
  = (b <- stage3_niches gw cfg adata ct g pre ;;
     if b then stage3_niches gw cfg adata ct g rest else Ok false).
Proof.
  induction pre as [|n pre IH]; simpl; [reflexivity|].
  destruct (count _ _ =? 0)%nat; [reflexivity|].
  destruct (early_slope gw cfg adata ct g n) as [s|e]; simpl; [|reflexivity].
  destruct (fle s 0); [reflexivity|exact IH].
Qed.

(** ** Where the binner raises *)

Lemma series_min_max_cons (x : Q) (xs : list Q) :
  exists lo hi, series_min (x :: xs) = Some lo /\ series_max (x :: xs) = Some hi.
Proof. simpl. eauto. Qed.

Lemma astype_int_none (r : list (option nat)) :
  Pandas.astype_int (None :: r) = Raise ValueError.
Proof. reflexivity. Qed.

Lemma linspace_one (lo hi : Q) :
  Numpy.linspace lo hi 1 = Ok [fl64 (fl64 (0 * fl64 (hi - lo)) + lo)].
Proof. reflexivity. Qed.

Lemma cut_one_edge (v : Q) (vs : list Q) (b : Q) :
  exists r, Pandas.cut (v :: vs) [b] 0 = Ok (None :: r).
Proof.
  unfold Pandas.cut. cbn [Pandas.decreasing Numpy.diff existsb Pandas.has_duplicates
                          orb andb length Nat.sub Nat.eqb negb map].
  destruct (Qeq_bool v b).
  - eexists. reflexivity.
  - cbn [Numpy.searchsorted]. destruct (Qltb b v); eexists; reflexivity.
Qed.

(** With no bin at all every code is NaN and the cast raises; with a
    negative count there is no edge to read or [linspace] refuses. *)
Lemma pt_bin_nonpositive sub N :
  obs sub <> [] -> (N <= 0)%Z -> raises (pt_bin sub N).
Proof.
  intros NE HN. unfold pt_bin.
  destruct (obs sub) as [|c cs]; [congruence|]. clear NE.
  cbn [map]. destruct (series_min_max_cons (pseudotime c) (map pseudotime cs))
    as (lo & hi & -> & ->).
  destruct (Z.eq_dec N 0) as [->|N0]; [|destruct (Z.eq_dec N (-1)) as [->|N1]].
  - exists ValueError. change (0 + 1)%Z with 1%Z. rewrite linspace_one.
    cbn [bind]. change (Z.to_nat 0) with 0%nat.
    destruct (cut_one_edge (pseudotime c) (map pseudotime cs)
                (fl64 (fl64 (0 * fl64 (hi - lo)) + lo)))
      as [r ->].
    reflexivity.
  - exists IndexError. reflexivity.
  - exists ValueError. unfold Numpy.linspace.
    assert (E : (N + 1 <? 0)%Z = true) by (apply Z.ltb_lt; lia).
    rewrite E. reflexivity.
Qed.

Lemma get_grouped_data_nonpositive sub N :
  obs sub <> [] -> (N <= 0)%Z -> raises (get_grouped_data sub N).
Proof.
  intros NE HN. unfold get_grouped_data. apply bind_raises.
  apply pt_bin_nonpositive; assumption.
Qed.

Lemma linspace_degenerate (lo hi : Q) (N : Z) :
  lo == hi -> (2 <= N)%Z ->
  exists a b rest,
    Numpy.linspace lo hi (N + 1) = Ok (a :: b :: rest) /\ a == b /\ rest <> [].
Proof.
  intros E HN. unfold Numpy.linspace.
  assert (E1 : (N + 1 <? 0)%Z = false) by (apply Z.ltb_ge; lia).
  assert (E2 : (0 <? N + 1 - 1)%Z = true) by (apply Z.ltb_lt; lia).
  assert (E3 : (1 <? N + 1)%Z = true) by (apply Z.ltb_lt; lia).
  assert (E4 : Z.to_nat (N + 1) = S (S (S (Z.to_nat (N - 2))))) by lia.
  assert (D : fl64 (hi - lo) = 0).
  { rewrite (fl64_eq (hi - lo) 0); [reflexivity|rewrite E; ring]. }
  rewrite E1, E2, E3, E4, D.
  assert (E5 : fl64 (0 / inject_Z (N + 1 - 1)) = 0).
  { rewrite (fl64_eq (0 / inject_Z (N + 1 - 1)) 0); [reflexivity|unfold Qdiv; ring]. }
  rewrite E5. change (Qeq_bool 0 0) with true. cbn [seq map removelast app].
  do 3 eexists. split; [reflexivity|]. split.
  - rewrite !fl64_zero_step. reflexivity.
  - intro H. apply app_eq_nil in H. destruct H as [_ H]. discriminate.
Qed.

Lemma cut_duplicate_edges (x : list Q) (a b : Q) (rest : list Q) (nlabels : nat) :
  a == b -> rest <> [] -> Pandas.cut x (a :: b :: rest) nlabels = Raise ValueError.
Proof.
  intros E NE. unfold Pandas.cut.
  destruct (Pandas.decreasing _); [reflexivity|].
  cbn [Pandas.has_duplicates existsb].
  apply Qeq_bool_iff in E. rewrite E. cbn [orb].
  destruct rest as [|r rest]; [congruence|]. reflexivity.
Qed.

Lemma pt_bin_degenerate sub N lo hi :
  series_min (map pseudotime (obs sub)) = Some lo ->
  series_max (map pseudotime (obs sub)) = Some hi ->
  lo == hi -> (2 <= N)%Z -> pt_bin sub N = Raise ValueError.
Proof.
  intros Hlo Hhi E HN. unfold pt_bin. rewrite Hlo, Hhi.
  destruct (linspace_degenerate lo hi N E HN) as (a & b & rest & -> & Eab & NE).
  cbn [bind]. rewrite (cut_duplicate_edges _ a b rest _ Eab NE). reflexivity.
Qed.

Lemma get_grouped_data_degenerate sub N lo hi :
  obs sub <> [] ->
  series_min (map pseudotime (obs sub)) = Some lo ->
  series_max (map pseudotime (obs sub)) = Some hi ->
  lo == hi -> N <> 1%Z -> raises (get_grouped_data sub N).
Proof.
  intros NE Hlo Hhi E HN. destruct (Z_le_gt_dec N 0) as [L|G].
  - apply get_grouped_data_nonpositive; assumption.
  - unfold get_grouped_data.
    rewrite (pt_bin_degenerate sub N lo hi Hlo Hhi E) by lia.
    exists ValueError. reflexivity.
Qed.

(** With one bin the binned trajectory has a single sample, too few for
    [np.gradient]. *)
Lemma early_slope_one_bin gw cfg adata ct g niche :
  NUM_BINS cfg = 1%Z -> raises (early_slope gw cfg adata ct g niche).
Proof.
  intro N1. unfold early_slope.
  destruct (get_grouped_data _ _) as [[grp ctr]|e] eqn:G; [|exists e; reflexivity].
  cbn [bind fst snd]. destruct (index_of g (var_names adata)) as [j|];
    [|exists KeyError; reflexivity].
  apply get_grouped_data_rows in G. rewrite N1 in G.
  apply bind_raises. apply gradient_short.
  unfold gaussian_filter1d. rewrite correlate1d_length, column_length, G. simpl. lia.
Qed.

Lemma early_slope_degenerate gw cfg adata ct g niche lo hi :
  let sub := subset adata (fun c => is_type ct c && in_niche niche c) in
  obs sub <> [] ->
  series_min (map pseudotime (obs sub)) = Some lo ->
  series_max (map pseudotime (obs sub)) = Some hi ->
  lo == hi -> raises (early_slope gw cfg adata ct g niche).
Proof.
  intros sub NE Hlo Hhi E. destruct (Z.eq_dec (NUM_BINS cfg) 1) as [N1|N1].
  - apply early_slope_one_bin. exact N1.
  - unfold early_slope. apply bind_raises.
    apply (get_grouped_data_degenerate sub (NUM_BINS cfg) lo hi); assumption.
Qed.

Lemma stage3_niches_raises gw cfg adata ct g (pre post : list string) niche :
  obs (subset adata (fun c => is_type ct c && in_niche niche c)) <> [] ->
  raises (early_slope gw cfg adata ct g niche) ->
  stage3_niches gw cfg adata ct g pre = Ok true ->
  raises (stage3_niches gw cfg adata ct g (pre ++ niche :: post)).
Proof.
  intros NE [e R] P. rewrite stage3_niches_app, P. cbn [bind stage3_niches].
  destruct (count _ _ =? 0)%nat eqn:C.
  - apply count_zero_iff in C. simpl in NE. congruence.
  - rewrite R. exists e. reflexivity.
Qed.

Lemma stage3_raises gw cfg adata ct g (genes2 : list string) :
  In g genes2 -> raises (stage3_keep gw cfg adata ct g) ->
  raises (stage3 gw cfg adata ct genes2).
Proof.
  intros I R. induction genes2 as [|h rest IH]; [destruct I|].
  cbn [stage3]. destruct (stage3_keep gw cfg adata ct h) as [ok|e] eqn:K.
  - destruct I as [->|I].
    + destruct R as [e R]. congruence.
    + cbn [bind]. apply bind_raises. apply IH. exact I.
  - exists e. reflexivity.
Qed.

(** ** No validation of the configuration *)

Lemma gradient_interior_uniform_length (f : list Q) (h : Q) :
  length (Numpy.gradient_interior_uniform f h) = (length f - 2)%nat.
Proof.
  induction f as [|f0 [|f1 [|f2 r]] IH]; try reflexivity.
  change (Numpy.gradient_interior_uniform (f0 :: f1 :: f2 :: r) h)
    with ((f2 - f0) / (2 * h) :: Numpy.gradient_interior_uniform (f1 :: f2 :: r) h).
  cbn [length] in *. lia.
Qed.

Lemma gradient_interior_length (f dx : list Q) :
  length dx = (length f - 1)%nat ->
  length (Numpy.gradient_interior f dx) = (length f - 2)%nat.
Proof.
  revert dx. induction f as [|f0 fr IH]; intros dx H.
  - destruct dx; reflexivity.
  - destruct fr as [|f1 [|f2 r]].
    + destruct dx; reflexivity.
    + destruct dx as [|hs [|hd dr]]; reflexivity.
    + destruct dx as [|hs [|hd dr]]; try (cbn [length] in H; lia).
      change (length (Numpy.gradient_interior (f0 :: f1 :: f2 :: r) (hs :: hd :: dr)))
        with (S (length (Numpy.gradient_interior (f1 :: f2 :: r) (hd :: dr)))).
      rewrite IH; cbn [length] in *; lia.
Qed.

Lemma gradient_inner_length (f dx : list Q) (h : Q) :
  length dx = (length f - 1)%nat ->
  length (if Numpy.all_equal_to h dx
          then Numpy.gradient_interior_uniform f h
          else Numpy.gradient_interior f dx) = (length f - 2)%nat.
Proof.
  intro H. destruct (Numpy.all_equal_to h dx).
  - apply gradient_interior_uniform_length.
  - apply gradient_interior_length. exact H.
Qed.

Lemma gradient_length (f x grad : list Q) :
  Numpy.gradient f x = Ok grad -> length grad = length f.
Proof.
  unfold Numpy.gradient.
  destruct (length x =? _)%nat eqn:L; cbn [negb]; [|discriminate].
  apply Nat.eqb_eq in L. pose proof (diff_length x) as D.
  destruct (Numpy.diff x) as [|h0 dr] eqn:Edx; [discriminate|]. rewrite <- Edx in *.
  destruct f as [|f0 [|f1 r]]; try discriminate.
  intro H. injection H as <-.
  cbn [length]. rewrite length_app.
  rewrite (gradient_inner_length (f0 :: f1 :: r)).
  - cbn [length]. lia.
  - rewrite D, L. reflexivity.
Qed.

Lemma early_slope_clip gw cfg adata ct g niche :
  (NUM_BINS cfg <= early_phase_bins cfg)%Z ->
  early_slope gw cfg adata ct g niche
  = early_slope gw (set_early_phase_bins cfg (NUM_BINS cfg)) adata ct g niche.
Proof.
  intro H. unfold early_slope. cbn [NUM_BINS early_phase_bins set_early_phase_bins].
  destruct (get_grouped_data _ _) as [[grp ctr]|e] eqn:G; [|reflexivity].
  cbn [bind fst snd]. destruct (index_of g (var_names adata)) as [j|]; [|reflexivity].
  destruct (Numpy.gradient _ _) as [grad|e] eqn:D; [|reflexivity].
  cbn [bind]. do 2 f_equal.
  pose proof (gradient_length _ _ _ D) as L.
  unfold gaussian_filter1d in L. rewrite correlate1d_length, column_length in L.
  rewrite (get_grouped_data_rows _ _ _ _ G) in L.
  destruct (gradient_Ok_cons _ _ _ D) as (d & r & Egrad).
  assert (1 <= NUM_BINS cfg)%Z by (rewrite Egrad in L; cbn [length] in L; lia).
  rewrite !slice_to_firstn by lia.
  rewrite !firstn_all2 by lia. reflexivity.
Qed.

Lemma stage3_clip gw cfg adata ct genes2 :
  (NUM_BINS cfg <= early_phase_bins cfg)%Z ->
  stage3 gw cfg adata ct genes2
  = stage3 gw (set_early_phase_bins cfg (NUM_BINS cfg)) adata ct genes2.
Proof.
  intro H. induction genes2 as [|g rest IH]; [reflexivity|].
  cbn [stage3]. rewrite IH. f_equal.
  unfold stage3_keep. cbn [fibrotic_niches set_early_phase_bins].
  induction (fibrotic_niches cfg) as [|n ns IHn]; [reflexivity|].
  cbn [stage3_niches]. rewrite <- (early_slope_clip gw cfg adata ct g n H), IHn.
  reflexivity.
Qed.

Lemma stage3_first_niche_empty gw cfg adata ct niche post genes2 :
  fibrotic_niches cfg = niche :: post ->
  obs (subset adata (fun c => is_type ct c && in_niche niche c)) = [] ->
  stage3 gw cfg adata ct genes2 = Ok [].
Proof.
  intros Hn E. apply count_zero_iff in E.
  induction genes2 as [|g rest IH]; [reflexivity|].
  cbn [stage3]. unfold stage3_keep. rewrite Hn. cbn [stage3_niches].
  rewrite E, IH. reflexivity.
Qed.

(** C6, as the code has it.  Nothing checks the configuration up front.
    An early-phase window wider than the bin count is accepted and gives
    what a window equal to the bin count gives.  A non-positive bin count
    is met only inside Stage 3: the cascade returns the empty list when
    no gene survives Stage 2 or when the first fibrotic niche holds no
    target cell, and raises, returning no list, when a Stage-2 survivor
    meets a first fibrotic niche that holds a target cell. *)
Theorem configuration_not_validated gw cfg adata ct :
  ((NUM_BINS cfg <= early_phase_bins cfg)%Z ->
   filter_genes_by_conditions gw cfg adata ct
   = filter_genes_by_conditions gw (set_early_phase_bins cfg (NUM_BINS cfg)) adata ct)
  /\ ((NUM_BINS cfg <= 0)%Z ->
      (stage2 cfg adata ct (stage1 cfg adata ct) = [] ->
       filter_genes_by_conditions gw cfg adata ct = Ok [])
      /\ (forall niche post,
            fibrotic_niches cfg = niche :: post ->
            (obs (subset adata (fun c => is_type ct c && in_niche niche c)) = [] ->
             filter_genes_by_conditions gw cfg adata ct = Ok [])
            /\ (obs (subset adata (fun c => is_type ct c && in_niche niche c)) <> [] ->
                stage2 cfg adata ct (stage1 cfg adata ct) <> [] ->
                raises (filter_genes_by_conditions gw cfg adata ct)))).
Proof.
  split.
  - intro H. unfold filter_genes_by_conditions.
    rewrite (stage3_clip gw cfg adata ct _ H). reflexivity.
  - intro H. split.
    + intro E. unfold filter_genes_by_conditions. rewrite E. reflexivity.
    + intros niche post Hn. split.
      * intro E. unfold filter_genes_by_conditions.
        rewrite (stage3_first_niche_empty gw cfg adata ct niche post _ Hn E).
        reflexivity.
      * intros NE G2. unfold filter_genes_by_conditions. apply bind_raises.
        destruct (stage2 cfg adata ct (stage1 cfg adata ct)) as [|g rest] eqn:S2;
          [congruence|].
        apply (stage3_raises gw cfg adata ct g); [left; reflexivity|].
        unfold stage3_keep. rewrite Hn.
        apply (stage3_niches_raises gw cfg adata ct g [] post niche NE);
          [|reflexivity].
        unfold early_slope. apply bind_raises.
        apply get_grouped_data_nonpositive; assumption.
Qed.

Lemma configuration_not_validated_witness :
  filter_genes_by_conditions kernel5 wide_window toy fibroblast
  = filter_genes_by_conditions kernel5 four_bins toy fibroblast
  /\ filter_genes_by_conditions kernel5 no_bins toy_core_empty fibroblast = Ok []
  /\ raises (filter_genes_by_conditions kernel5 no_bins toy fibroblast).
Proof.
  split; [|split].
  - pose proof (proj1 (configuration_not_validated kernel5 wide_window toy fibroblast)
                  ltac:(simpl; lia)) as H.
    rewrite H. vm_compute. reflexivity.
  - apply (proj1 (proj2 (proj2 (configuration_not_validated kernel5 no_bins toy_core_empty
                                  fibroblast) ltac:(simpl; lia))
                          "Fibrotic Niche"%string
                          ["Ultraproximal"%string; "Proximal"%string] eq_refl)).
    vm_compute. reflexivity.
  - apply (proj2 (proj2 (proj2 (configuration_not_validated kernel5 no_bins toy
                                  fibroblast) ltac:(simpl; lia))
                          "Fibrotic Niche"%string
                          ["Ultraproximal"%string; "Proximal"%string] eq_refl));
      vm_compute; discriminate.
Defined.

(** C6 as stated fails: a window of seven samples on four bins is run to
    a gene list, and a bin count of zero is run to an (empty) gene list
    on a table whose first fibrotic niche holds no target cell. *)
Lemma impossible_configurations_accepted :
  (NUM_BINS wide_window < early_phase_bins wide_window)%Z
  /\ filter_genes_by_conditions kernel5 wide_window toy fibroblast = Ok ["GeneA"%string]
  /\ (NUM_BINS no_bins <= 0)%Z
  /\ filter_genes_by_conditions kernel5 no_bins toy_core_empty fibroblast = Ok [].
Proof.
  repeat split; try (vm_compute; reflexivity). vm_compute. discriminate.
Qed.

(** ** The binner on a subset whose edges are distinct *)

Lemma removelast_map_seq {A : Type} (h : nat -> A) (n : nat) :
  removelast (map h (seq 0 (S n))) = map h (seq 0 n).
Proof.
  rewrite seq_S, map_app. apply removelast_last.
Qed.

Lemma linspace_edges (lo hi : Q) (N : Z) :
  (1 <= N)%Z ->
  Numpy.linspace lo hi (N + 1)
  = Ok (map (linspace_edge lo hi N) (seq 0 (Z.to_nat N)) ++ [hi]).
Proof.
  intro HN. unfold Numpy.linspace.
  assert (E1 : (N + 1 <? 0)%Z = false) by (apply Z.ltb_ge; lia).
  assert (E2 : (0 <? N + 1 - 1)%Z = true) by (apply Z.ltb_lt; lia).
  assert (E3 : (1 <? N + 1)%Z = true) by (apply Z.ltb_lt; lia).
  assert (E4 : Z.to_nat (N + 1) = S (Z.to_nat N)) by lia.
  assert (E5 : (N + 1 - 1)%Z = N) by lia.
  rewrite E1, E2, E3, E4, E5.
  assert (Y : map (fun a => fl64 (a + lo))
                (if Qeq_bool (fl64 (fl64 (hi - lo) / inject_Z N)) 0
                 then map (fun a => fl64 (fl64 (a / inject_Z N) * fl64 (hi - lo)))
                          (map (fun i => inject_Z (Z.of_nat i)) (seq 0 (S (Z.to_nat N))))
                 else map (fun a => fl64 (a * fl64 (fl64 (hi - lo) / inject_Z N)))
                          (map (fun i => inject_Z (Z.of_nat i)) (seq 0 (S (Z.to_nat N)))))
              = map (linspace_edge lo hi N) (seq 0 (S (Z.to_nat N)))).
  { unfold linspace_edge, linspace_step.
    destruct (Qeq_bool _ 0); rewrite !map_map; reflexivity. }
  rewrite Y, removelast_map_seq. reflexivity.
Qed.

Lemma linspace_edge_first (lo hi : Q) (N : Z) : linspace_edge lo hi N 0 = fl64 lo.
Proof.
  unfold linspace_edge. change (inject_Z (Z.of_nat 0)) with 0.
  destruct (Qeq_bool _ 0).
  - rewrite (fl64_eq (fl64 (0 / inject_Z N) * fl64 (hi - lo)) 0).
    + rewrite fl64_0. apply fl64_eq. ring.
    + rewrite (fl64_eq (0 / inject_Z N) 0) by (unfold Qdiv; ring). rewrite fl64_0. ring.
  - rewrite (fl64_eq (0 * linspace_step lo hi N) 0) by ring.
    rewrite fl64_0. apply fl64_eq. ring.
Qed.

Lemma adjacent_lt_increasing (l : list Q) :
  adjacent_lt l = true -> strictly_increasing l.
Proof.
  induction l as [|x r IH]; intros H i j Hij; [cbn [length] in Hij; lia|].
  destruct r as [|y r']; [cbn [length] in Hij; lia|].
  change (adjacent_lt (x :: y :: r')) with (Qltb x y && adjacent_lt (y :: r')) in H.
  apply andb_true_iff in H. destruct H as [Hxy Hr]. apply Qltb_lt in Hxy.
  specialize (IH Hr).
  assert (Hy : forall k, (k < length (y :: r'))%nat -> y <= nth k (y :: r') 0).
  { intros [|k] Hk; [apply Qle_refl|].
    apply Qlt_le_weak. apply (IH 0%nat (S k)). lia. }
  destruct i as [|i]; destruct j as [|j]; try lia.
  - cbn [nth]. eapply Qlt_le_trans; [exact Hxy|].
    apply (Hy j). cbn [length] in *. lia.
  - change (nth i (y :: r') 0 < nth j (y :: r') 0). apply IH. cbn [length] in *. lia.
Qed.

Lemma searchsorted_spec (a : list Q) (v : Q) :
  (Numpy.searchsorted a v <= length a)%nat
  /\ (forall i, (i < Numpy.searchsorted a v)%nat -> nth i a 0 < v)
  /\ ((Numpy.searchsorted a v < length a)%nat -> v <= nth (Numpy.searchsorted a v) a 0).
Proof.
  induction a as [|e r (IH1 & IH2 & IH3)]; cbn [Numpy.searchsorted length].
  - split; [lia|]. split; intros; lia.
  - destruct (Qltb e v) eqn:E.
    + apply Qltb_lt in E. split; [lia|]. split.
      * intros [|i] Hi; cbn [nth]; [exact E|apply IH2; lia].
      * intro H. cbn [nth]. apply IH3. lia.
    + apply Qltb_ge in E. split; [lia|]. split; [intros; lia|].
      intros _. exact E.
Qed.

Lemma decreasing_false (bins : list Q) :
  (forall i, (S i < length bins)%nat -> nth i bins 0 <= nth (S i) bins 0) ->
  Pandas.decreasing bins = false.
Proof.
  unfold Pandas.decreasing. induction bins as [|x r IH]; intro H; [reflexivity|].
  destruct r as [|y r']; [reflexivity|].
  change (Numpy.diff (x :: y :: r')) with ((y - x) :: Numpy.diff (y :: r')).
  cbn [existsb]. apply orb_false_iff. split.
  - apply Qltb_ge. pose proof (H 0%nat ltac:(cbn [length]; lia)) as H0.
    cbn [nth] in H0. lra.
  - apply IH. intros i Hi. apply (H (S i)). cbn [length] in *. lia.
Qed.

Lemma has_duplicates_false (bins : list Q) :
  strictly_increasing bins -> Pandas.has_duplicates bins = false.
Proof.
  induction bins as [|b r IH]; intro H; [reflexivity|].
  cbn [Pandas.has_duplicates]. apply orb_false_iff. split.
  - destruct (existsb (Qeq_bool b) r) eqn:E; [|reflexivity]. exfalso.
    apply existsb_exists in E. destruct E as (x & Ix & Ex).
    apply Qeq_bool_iff in Ex.
    destruct (In_nth r x 0 Ix) as (j & Hj & Hx).
    pose proof (H 0%nat (S j) ltac:(cbn [length]; lia)) as L.
    cbn [nth] in L. rewrite Hx in L. lra.
  - apply IH. intros i j Hij. apply (H (S i) (S j)). cbn [length]. lia.
Qed.

Lemma in_bin_unique (bins : list Q) (n b b' : nat) (v : Q) :
  length bins = S n -> (n = 1%nat \/ strictly_increasing bins) ->
  (b < n)%nat -> (b' < n)%nat ->
  in_bin bins b v = true -> in_bin bins b' v = true -> b = b'.
Proof.
  intros L [N1|SI] Hb Hb' B B'; [lia|].
  assert (W : forall b b', (b < b')%nat -> (b' < n)%nat ->
              in_bin bins b v = true -> in_bin bins b' v = true -> False).
  { clear b b' Hb Hb' B B'. intros b b' Lt Hb' B B'. unfold in_bin in *.
    apply andb_true_iff in B. destruct B as [_ U]. apply Qle_bool_iff in U.
    apply andb_true_iff in B'. destruct B' as [Lo _].
    destruct (b' =? 0)%nat eqn:Z0; [apply Nat.eqb_eq in Z0; lia|].
    apply Qltb_lt in Lo.
    destruct (Nat.eq_dec (S b) b') as [E|NE].
    - rewrite E in U. lra.
    - pose proof (SI (S b) b' ltac:(lia)). lra. }
  destruct (lt_eq_lt_dec b b') as [[Lt|E]|Lt]; [|exact E|].
  - exfalso. exact (W b b' Lt Hb' B B').
  - exfalso. exact (W b' b Lt Hb B' B).
Qed.

(** The code that [pd.cut] gives a value between the first and the last
    edge is a bin it lies in. *)
Lemma cut_code (bins : list Q) (n : nat) (lo hi v : Q) :
  (1 <= n)%nat -> length bins = S n ->
  nth 0 bins 0 == lo -> nth n bins 0 == hi ->
  (n = 1%nat \/ strictly_increasing bins) ->
  lo <= v -> v <= hi ->
  exists b,
    (let id := if Qeq_bool v (nth 0 bins 0) then 1%nat else Numpy.searchsorted bins v in
     if (id =? length bins)%nat || (id =? 0)%nat then None else Some (id - 1)%nat)
    = Some b
    /\ (b < n)%nat
    /\ in_bin bins b v = true.
Proof.
  intros n1 L E0 En Mono Hlo Hhi. cbv zeta.
  destruct (Qeq_bool v (nth 0 bins 0)) eqn:V.
  - apply Qeq_bool_iff in V. exists 0%nat. rewrite L.
    destruct n as [|n']; [lia|].
    split; [reflexivity|]. split; [lia|].
    unfold in_bin. cbn [Nat.eqb]. apply andb_true_iff. split; apply Qle_bool_iff.
    + rewrite E0. exact Hlo.
    + destruct Mono as [N1|SI].
      * injection N1 as ->. rewrite En. exact Hhi.
      * pose proof (SI 0%nat 1%nat ltac:(lia)). lra.
  - apply Qeq_bool_false in V.
    destruct (searchsorted_spec bins v) as (K1 & K2 & K3).
    set (k := Numpy.searchsorted bins v) in *.
    assert (Kn : (k <= n)%nat).
    { destruct (le_lt_dec k n) as [?|G]; [assumption|exfalso].
      pose proof (K2 n G) as C. lra. }
    assert (K0 : (1 <= k)%nat).
    { destruct k as [|k']; [exfalso|lia].
      pose proof (K3 ltac:(lia)) as C. apply V. lra. }
    exists (k - 1)%nat. rewrite L.
    assert (T1 : (k =? S n)%nat = false) by (apply Nat.eqb_neq; lia).
    assert (T2 : (k =? 0)%nat = false) by (apply Nat.eqb_neq; lia).
    rewrite T1, T2. split; [reflexivity|]. split; [lia|].
    pose proof (K2 (k - 1)%nat ltac:(lia)) as Lo.
    pose proof (K3 ltac:(lia)) as Up.
    unfold in_bin. replace (S (k - 1)) with k by lia.
    apply andb_true_iff. split; [|apply Qle_bool_iff; exact Up].
    destruct (k - 1 =? 0)%nat eqn:Z0.
    + apply Nat.eqb_eq in Z0. rewrite Z0 in Lo. apply Qle_bool_iff. lra.
    + apply Qltb_lt. exact Lo.
Qed.

Lemma Qmax_cases_le (x y : Q) : x <= Qmax x y /\ y <= Qmax x y.
Proof. split; [apply Q.le_max_l|apply Q.le_max_r]. Qed.

Lemma fold_max_spec (l : list Q) (x : Q) :
  x <= fold_left Qmax l x /\ forall y, In y l -> y <= fold_left Qmax l x.
Proof.
  revert x. induction l as [|a l IH]; intro x; cbn [fold_left].
  - split; [apply Qle_refl|intros y []].
  - destruct (IH (Qmax x a)) as (H1 & H2). destruct (Qmax_cases_le x a) as [L1 L2].
    split; [eapply Qle_trans; eassumption|].
    intros y [<-|Hy]; [eapply Qle_trans; eassumption|apply H2; exact Hy].
Qed.

Lemma series_bounds (pts : list Q) (lo hi : Q) :
  series_min pts = Some lo -> series_max pts = Some hi ->
  forall v, In v pts -> lo <= v /\ v <= hi.
Proof.
  destruct pts as [|x r]; [discriminate|]. cbn [series_min series_max].
  intros Hlo Hhi v Hv. inversion Hlo; inversion Hhi; subst lo hi.
  destruct (fold_min_spec r x) as (_ & m1 & m2).
  destruct (fold_max_spec r x) as (M1 & M2).
  destruct Hv as [<-|Hv]; split; auto.
Qed.

Lemma series_min_In (pts : list Q) (lo : Q) : series_min pts = Some lo -> In lo pts.
Proof.
  destruct pts as [|x r]; [discriminate|]. cbn [series_min]. intro H.
  inversion H; subst lo. destruct (fold_min_spec r x) as ([E|I] & _).
  - left. symmetry. exact E.
  - right. exact I.
Qed.

Lemma astype_int_map {A : Type} (code : A -> option nat) (P : A -> nat -> Prop)
  (l : list A) :
  (forall a, In a l -> exists b, code a = Some b /\ P a b) ->
  exists codes, Pandas.astype_int (map code l) = Ok codes /\ Forall2 P l codes.
Proof.
  induction l as [|a l IH]; intro H.
  - exists []. split; [reflexivity|constructor].
  - destruct (H a (or_introl eq_refl)) as (b & Eb & Pb).
    destruct (IH (fun a' I => H a' (or_intror I))) as (codes & Ec & Fc).
    exists (b :: codes). cbn [map Pandas.astype_int]. rewrite Eb, Ec.
    split; [reflexivity|constructor; assumption].
Qed.

Lemma pt_bin_ok sub N lo hi bins :
  series_min (map pseudotime (obs sub)) = Some lo ->
  series_max (map pseudotime (obs sub)) = Some hi ->
  Forall (fun c => is_double (pseudotime c)) (obs sub) ->
  (1 <= N)%Z ->
  Numpy.linspace lo hi (N + 1) = Ok bins ->
  (N = 1%Z \/ strictly_increasing bins) ->
  exists codes,
    pt_bin sub N = Ok (bins, codes)
    /\ length bins = S (Z.to_nat N)
    /\ nth 0 bins 0 == lo /\ nth (Z.to_nat N) bins 0 = hi
    /\ (forall i, (i < Z.to_nat N)%nat -> nth i bins 0 = linspace_edge lo hi N i)
    /\ Forall2 (fun c b => (b < Z.to_nat N)%nat
                           /\ in_bin bins b (pseudotime c) = true)
               (obs sub) codes.
Proof.
  intros Hlo Hhi Dbl HN Lin Mono. unfold pt_bin. rewrite Hlo, Hhi, Lin.
  rewrite (linspace_edges lo hi N HN) in Lin. injection Lin as Eb.
  set (n := Z.to_nat N) in *.
  assert (n1 : (1 <= n)%nat) by (unfold n; lia).
  assert (L : length bins = S n).
  { rewrite <- Eb, length_app, length_map, length_seq. cbn [length]. lia. }
  assert (Ei : forall i, (i < n)%nat -> nth i bins 0 = linspace_edge lo hi N i).
  { intros i Hi. rewrite <- Eb, app_nth1 by (rewrite length_map, length_seq; exact Hi).
    rewrite (map_nth_default _ _ 0%nat) by (rewrite length_seq; exact Hi).
    rewrite seq_nth by exact Hi. reflexivity. }
  assert (En : nth n bins 0 = hi).
  { rewrite <- Eb, app_nth2; rewrite length_map, length_seq; [|lia].
    rewrite Nat.sub_diag. reflexivity. }
  assert (E0 : nth 0 bins 0 == lo).
  { rewrite (Ei 0%nat) by lia. rewrite linspace_edge_first.
    pose proof (series_min_In _ _ Hlo) as I. apply in_map_iff in I.
    destruct I as (c & Ec & Ic). rewrite <- Ec.
    exact (proj1 (Forall_forall _ _) Dbl c Ic). }
  assert (Mono' : n = 1%nat \/ strictly_increasing bins).
  { destruct Mono as [->|SI]; [left; reflexivity|right; exact SI]. }
  assert (LoHi : lo <= hi).
  { pose proof (series_min_In _ _ Hlo) as I.
    apply (series_bounds _ lo hi Hlo Hhi lo I). }
  cbn [bind]. unfold Pandas.cut.
  assert (Dec : Pandas.decreasing bins = false).
  { apply decreasing_false. intros i Hi. destruct Mono' as [N1|SI].
    - rewrite L, N1 in Hi. assert (i = 0%nat) by lia. subst i.
      rewrite <- N1, En, E0. exact LoHi.
    - apply Qlt_le_weak. apply SI. lia. }
  assert (Dup : Pandas.has_duplicates bins && negb (length bins =? 2)%nat = false).
  { destruct Mono' as [N1|SI].
    - rewrite L, N1. cbn [Nat.eqb negb]. apply andb_false_r.
    - rewrite (has_duplicates_false bins SI). reflexivity. }
  rewrite Dec, Dup.
  destruct bins as [|b0 r] eqn:B; [discriminate|]. rewrite <- B in *.
  assert (T : (n =? length bins - 1)%nat = true)
    by (apply Nat.eqb_eq; rewrite L; lia).
  rewrite T. cbn [negb bind]. rewrite map_map.
  destruct (astype_int_map
              (fun c => let id := if Qeq_bool (pseudotime c) b0 then 1%nat
                                  else Numpy.searchsorted bins (pseudotime c) in
                        if (id =? length bins)%nat || (id =? 0)%nat
                        then None else Some (id - 1)%nat)
              (fun c b => (b < n)%nat /\ in_bin bins b (pseudotime c) = true)
              (obs sub)) as (codes & Ec & F).
  - intros c Ic.
    destruct (series_bounds _ lo hi Hlo Hhi (pseudotime c) (in_map _ _ _ Ic)) as [B1 B2].
    destruct (cut_code bins n lo hi (pseudotime c) n1 L E0 ltac:(rewrite En; reflexivity)
                Mono' B1 B2) as (b & Eb' & Pb).
    exists b. split; [|exact Pb]. rewrite <- Eb'. rewrite B. reflexivity.
  - exists codes. cbv zeta in Ec. rewrite Ec. cbn [bind].
    repeat split; try assumption; apply F.
Qed.

Lemma rows_of_bin (bins : list Q) (n : nat) (cells : list Cell) (codes : list nat) (b : nat) :
  length bins = S n -> (n = 1%nat \/ strictly_increasing bins) -> (b < n)%nat ->
  Forall2 (fun c k => (k < n)%nat /\ in_bin bins k (pseudotime c) = true) cells codes ->
  map snd (filter (fun kr => (fst kr =? b)%nat) (combine codes (map X cells)))
  = map X (filter (fun c => in_bin bins b (pseudotime c)) cells).
Proof.
  intros L Mono Hb F. induction F as [|c k cells codes [Hkn Hk] _ IH]; [reflexivity|].
  cbn [map combine filter fst]. destruct (k =? b)%nat eqn:E.
  - apply Nat.eqb_eq in E. subst k. rewrite Hk. cbn [map]. rewrite IH. reflexivity.
  - destruct (in_bin bins b (pseudotime c)) eqn:I; [|exact IH].
    apply Nat.eqb_neq in E. exfalso. apply E.
    apply (in_bin_unique bins n k b (pseudotime c)); assumption.
Qed.

Lemma removelast_length {A : Type} (l : list A) :
  length (removelast l) = (length l - 1)%nat.
Proof.
  rewrite removelast_firstn_len, length_firstn. lia.
Qed.

Lemma removelast_nth (l : list Q) (i : nat) :
  (i < length l - 1)%nat -> nth i (removelast l) 0 = nth i l 0.
Proof.
  revert i. induction l as [|x [|y r] IH]; intros i Hi; try (cbn [length] in Hi; lia).
  change (removelast (x :: y :: r)) with (x :: removelast (y :: r)).
  destruct i as [|i]; [reflexivity|]. cbn [nth]. apply IH. cbn [length] in *. lia.
Qed.

Lemma tl_nth (l : list Q) (i : nat) : nth i (tl l) 0 = nth (S i) l 0.
Proof. destruct l; [destruct i; reflexivity|reflexivity]. Qed.

(** C3, as the code has it.  Take a non-empty subset of double
    pseudotimes with minimum [lo] and maximum [hi], a bin count of at
    least 1, and the [N + 1] edges that [np.linspace] computes; let them
    be strictly increasing, or let there be one bin.  Then the binner
    returns.  The edges start at [lo], end at [hi] and are [lo] plus a
    multiple of the common width, up to rounding; every cell lies in
    exactly one of the [N] bins they delimit (lowest edge included in the
    first bin, upper edge included in every bin) and that bin is its
    code; the frame has exactly [N] rows, the row of a bin being the
    per-gene mean over its cells and all zeros when it has none; the
    centres are the [N] (rounded) midpoints of the bins. *)
Theorem binner_equal_width_partition sub N lo hi bins :
  series_min (map pseudotime (obs sub)) = Some lo ->
  series_max (map pseudotime (obs sub)) = Some hi ->
  Forall (fun c => is_double (pseudotime c)) (obs sub) ->
  (1 <= N)%Z ->
  Numpy.linspace lo hi (N + 1) = Ok bins ->
  (N = 1%Z \/ strictly_increasing bins) ->
  let n := Z.to_nat N in
  let ncols := length (var_names sub) in
  exists codes grp ctr,
    pt_bin sub N = Ok (bins, codes)
    /\ get_grouped_data sub N = Ok (grp, ctr)
    /\ length bins = S n
    /\ (forall i, (i < n)%nat -> nth i bins 0 = linspace_edge lo hi N i)
    /\ nth 0 bins 0 == lo /\ nth n bins 0 = hi
    /\ (forall c, In c (obs sub) ->
          nth 0 bins 0 <= pseudotime c /\ pseudotime c <= nth n bins 0)
    /\ Forall2 (fun c b =>
                  (b < n)%nat
                  /\ forall b', (b' < n)%nat ->
                                (in_bin bins b' (pseudotime c) = true <-> b' = b))
               (obs sub) codes
    /\ length grp = n
    /\ (forall b, (b < n)%nat ->
          let members := filter (fun c => in_bin bins b (pseudotime c)) (obs sub) in
          nth b grp [] =
          match members with
          | [] => repeat 0 ncols
          | _ :: _ =>
              map (fun j => Qsum (map (fun c => nth j (X c) 0) members) / Qlen members)
                  (seq 0 ncols)
          end)
    /\ length ctr = n
    /\ (forall b, (b < n)%nat ->
          nth b ctr 0 = fl64 (fl64 (nth b bins 0 + nth (S b) bins 0) / 2)).
Proof.
  intros Hlo Hhi Dbl HN Lin Mono n ncols.
  destruct (pt_bin_ok sub N lo hi bins Hlo Hhi Dbl HN Lin Mono)
    as (codes & P & L & E0 & En & Ei & F).
  fold n in L, En, Ei, F.
  assert (Mono' : n = 1%nat \/ strictly_increasing bins).
  { destruct Mono as [->|SI]; [left; reflexivity|right; exact SI]. }
  eexists codes, _, _. split; [exact P|]. split.
  { unfold get_grouped_data. rewrite P. cbn [bind fst snd]. reflexivity. }
  split; [exact L|]. split; [exact Ei|]. split; [exact E0|]. split; [exact En|]. split.
  { intros c Ic. rewrite E0, En.
    apply (series_bounds _ lo hi Hlo Hhi). apply in_map. exact Ic. }
  split.
  { eapply Forall2_impl; [|exact F]. intros c b [Hb Ib]. split; [exact Hb|].
    intros b' Hb'. split.
    - intro Ib'. apply (in_bin_unique bins n b' b (pseudotime c)); assumption.
    - intros ->. exact Ib. }
  split; [rewrite length_map, length_seq; reflexivity|]. split.
  { intros b Hb members.
    rewrite (map_nth_default _ _ 0%nat) by (rewrite length_seq; exact Hb).
    rewrite seq_nth by exact Hb. cbn [Nat.add].
    unfold Pandas.group_row. rewrite (rows_of_bin bins n _ _ b L Mono' Hb F).
    fold members. destruct members as [|c cs]; [reflexivity|].
    cbn [map]. apply map_ext. intro j.
    unfold Pandas.column, Qlen. cbn [map length].
    rewrite map_map, length_map. reflexivity. }
  assert (Lc : length (combine (removelast bins) (tl bins)) = n).
  { rewrite length_combine, removelast_length, length_tl, L. lia. }
  split; [rewrite length_map; exact Lc|].
  intros b Hb.
  rewrite (map_nth_default _ _ (0, 0)) by (rewrite Lc; exact Hb).
  rewrite combine_nth by (rewrite removelast_length, length_tl; reflexivity).
  cbn [fst snd]. rewrite removelast_nth by lia. rewrite tl_nth. reflexivity.
Qed.

Lemma binner_equal_width_partition_witness :
  exists codes grp ctr,
    pt_bin (subset toy (fun c => is_type fibroblast c && in_niche "Fibrotic Niche" c)) 4
    = Ok ([0; 1 # 2; 1; 3 # 2; 2], codes)
    /\ get_grouped_data
         (subset toy (fun c => is_type fibroblast c && in_niche "Fibrotic Niche" c)) 4
       = Ok (grp, ctr)
    /\ codes = [0; 1; 3]%nat
    /\ length grp = 4%nat
    /\ nth 2 grp [] = [0; 0].
Proof.
  destruct (binner_equal_width_partition
              (subset toy (fun c => is_type fibroblast c && in_niche "Fibrotic Niche" c))
              4 0 2 [0; 1 # 2; 1; 3 # 2; 2]
              ltac:(vm_compute; reflexivity) ltac:(vm_compute; reflexivity)
              ltac:(repeat constructor) ltac:(lia)
              ltac:(vm_compute; reflexivity)
              ltac:(right; apply adjacent_lt_increasing; vm_compute; reflexivity))
    as (codes & grp & ctr & P & G & _ & _ & _ & _ & _ & _ & Lg & R & _).
  exists codes, grp, ctr. split; [exact P|]. split; [exact G|].
  split; [|split].
  - vm_compute in P. injection P as <-. reflexivity.
  - exact Lg.
  - rewrite (R 2%nat ltac:(simpl; lia)). reflexivity.
Defined.

(** C3 as stated fails: a subset of one cell is non-empty, and the
    binner raises on it instead of returning [N] rows, for the notebook's
    50 bins as for 2. *)
Lemma binner_raises_on_single_cell :
  obs (subset toy_single (fun c => is_type fibroblast c && in_niche "Proximal" c)) <> []
  /\ get_grouped_data
       (subset toy_single (fun c => is_type fibroblast c && in_niche "Proximal" c)) 50
     = Raise ValueError
  /\ get_grouped_data
       (subset toy_single (fun c => is_type fibroblast c && in_niche "Proximal" c)) 2
     = Raise ValueError.
Proof.
  split; [vm_compute; discriminate|]. split; vm_compute; reflexivity.
Qed.

(** ** A subset with a single pseudotime *)

(** C10 as stated fails: with one bin the binner returns, one row and
    one centre, on a subset of a single cell; pandas accepts two equal
    edges. *)
Lemma one_bin_binner_returns_on_single_cell :
  obs (subset toy_single (fun c => is_type fibroblast c && in_niche "Proximal" c))
  = [cell fibroblast "Proximal" 0 6 0 0 1]
  /\ get_grouped_data
       (subset toy_single (fun c => is_type fibroblast c && in_niche "Proximal" c)) 1
     = Ok ([[0; 1]], [0]).
Proof.
  split; vm_compute; reflexivity.
Qed.

(** C10, as the code has it.  On a non-empty subset whose pseudotimes
    all coincide the binner raises for every bin count but 1 (so for the notebook's
    50), and with one bin it returns one row when the pseudotime is a
    double; the Stage-3 test of that niche raises for every bin count
    (with one bin [np.gradient] has a single sample).  The guard of
    Stage 3 only looks at emptiness, so a Stage-2 survivor that reaches
    such a niche makes the whole cascade raise: no gene list is returned
    and the gene is not merely rejected. *)
Theorem degenerate_subset_aborts_cascade gw cfg adata ct niche lo hi :
  let sub := subset adata (fun c => is_type ct c && in_niche niche c) in
  obs sub <> [] ->
  series_min (map pseudotime (obs sub)) = Some lo ->
  series_max (map pseudotime (obs sub)) = Some hi ->
  lo == hi ->
  (NUM_BINS cfg <> 1%Z -> raises (get_grouped_data sub (NUM_BINS cfg)))
  /\ (NUM_BINS cfg = 1%Z ->
      Forall (fun c => is_double (pseudotime c)) (obs sub) ->
      exists grp ctr,
        get_grouped_data sub (NUM_BINS cfg) = Ok (grp, ctr) /\ length grp = 1%nat)
  /\ (forall g, raises (early_slope gw cfg adata ct g niche))
  /\ (forall g pre post,
        fibrotic_niches cfg = pre ++ niche :: post ->
        stage3_niches gw cfg adata ct g pre = Ok true ->
        raises (stage3_keep gw cfg adata ct g)
        /\ (In g (stage2 cfg adata ct (stage1 cfg adata ct)) ->
            raises (filter_genes_by_conditions gw cfg adata ct))).
Proof.
  intros sub NE Hlo Hhi E. split; [|split; [|split]].
  - intro N1. apply (get_grouped_data_degenerate sub _ lo hi); assumption.
  - intros N1 Dbl. rewrite N1.
    destruct (pt_bin_ok sub 1 lo hi _ Hlo Hhi Dbl ltac:(lia)
                (linspace_edges lo hi 1 ltac:(lia)) (or_introl eq_refl))
      as (codes & P & _).
    eexists _, _. split.
    + unfold get_grouped_data. rewrite P. cbn [bind fst snd]. reflexivity.
    + rewrite length_map, length_seq. reflexivity.
  - intro g. apply (early_slope_degenerate gw cfg adata ct g niche lo hi); assumption.
  - intros g pre post Hn P.
    assert (R : raises (stage3_keep gw cfg adata ct g)).
    { unfold stage3_keep. rewrite Hn. apply stage3_niches_raises; try assumption.
      apply (early_slope_degenerate gw cfg adata ct g niche lo hi); assumption. }
    split; [exact R|]. intro I. unfold filter_genes_by_conditions.
    apply bind_raises. apply (stage3_raises gw cfg adata ct g); assumption.
Qed.

Lemma degenerate_subset_aborts_cascade_witness :
  raises (get_grouped_data
            (subset toy_single (fun c => is_type fibroblast c && in_niche "Proximal" c))
            (NUM_BINS notebook_config))
  /\ raises (filter_genes_by_conditions kernel5 four_bins toy_single fibroblast)
  /\ exists grp ctr,
       get_grouped_data
         (subset toy_single (fun c => is_type fibroblast c && in_niche "Proximal" c))
         (NUM_BINS (set_NUM_BINS four_bins 1))
       = Ok (grp, ctr) /\ length grp = 1%nat.
Proof.
  split; [|split].
  - apply (proj1 (degenerate_subset_aborts_cascade kernel5 notebook_config toy_single
                    fibroblast "Proximal"%string 0 0
                    ltac:(vm_compute; discriminate) eq_refl eq_refl ltac:(reflexivity))).
    vm_compute. discriminate.
  - apply (proj2 (proj2 (proj2 (degenerate_subset_aborts_cascade kernel5 four_bins
                    toy_single fibroblast "Proximal"%string 0 0
                    ltac:(vm_compute; discriminate) eq_refl eq_refl ltac:(reflexivity))))
             "GeneA"%string ["Fibrotic Niche"%string; "Ultraproximal"%string] []).
    + reflexivity.
    + vm_compute. reflexivity.
    + vm_compute. auto.
  - apply (proj1 (proj2 (degenerate_subset_aborts_cascade kernel5
                    (set_NUM_BINS four_bins 1)
                    toy_single fibroblast "Proximal"%string 0 0
                    ltac:(vm_compute; discriminate) eq_refl eq_refl ltac:(reflexivity)))).
    + reflexivity.
    + repeat constructor.
Defined.

(** ** The fold change of the Figure 6A table *)

(** C8, on [toy].  GeneA is the gene the cascade returns.  The argument
    of [np.log2] in the table is 1.8 over 3 (with 1e-9 on both sides):
    the numerator is the mean over all ten fibroblasts, the two of the
    remote niche included, and the denominator the mean over all three
    cells of the remote niche.  The quotient of the mean over the
    fibrotic niches by the mean over the remote niche is another number,
    with all cell types (17/9 over 3) as with the fibroblasts alone
    (17/8 over 1/2). *)
Lemma log2fc_is_not_fibrotic_over_remote :
  filter_genes_by_conditions kernel5 four_bins toy fibroblast = Ok ["GeneA"%string]
  /\ mean (expr_col toy (is_type fibroblast) "GeneA") = Fin ((18 # 1) / (10 # 1))
  /\ mean (expr_col toy (in_niche (remote_niche four_bins)) "GeneA") = Fin ((9 # 1) / (3 # 1))
  /\ log2fc_arg four_bins toy fibroblast "GeneA"
     = Fin (((18 # 1) / (10 # 1) + eps) / ((9 # 1) / (3 # 1) + eps))
  /\ mean (expr_col toy (in_fibrotic four_bins) "GeneA") = Fin ((17 # 1) / (9 # 1))
  /\ mean (expr_col toy (fibm four_bins fibroblast) "GeneA") = Fin ((17 # 1) / (8 # 1))
  /\ mean (expr_col toy (remm four_bins fibroblast) "GeneA") = Fin ((1 # 1) / (2 # 1))
  /\ ~ ((18 # 1) / (10 # 1) + eps) / ((9 # 1) / (3 # 1) + eps)
       == ((17 # 1) / (9 # 1)) / ((9 # 1) / (3 # 1))
  /\ ~ ((18 # 1) / (10 # 1) + eps) / ((9 # 1) / (3 # 1) + eps)
       == ((17 # 1) / (8 # 1)) / ((1 # 1) / (2 # 1))
  /\ ((18 # 1) / (10 # 1) + eps) / ((9 # 1) / (3 # 1) + eps) < 1
  /\ 1 < ((17 # 1) / (8 # 1)) / ((1 # 1) / (2 # 1)).
Proof.
  repeat split; try (vm_compute; reflexivity); vm_compute; discriminate.
Qed.

(** ** Further properties of the cascade *)

Lemma subseq_In {A : Type} (l1 l2 : list A) (x : A) :
  subseq l1 l2 -> In x l1 -> In x l2.
Proof.
  induction 1 as [|y l1 l2 H IH|y l1 l2 H IH]; simpl; intuition.
Qed.

Lemma filter_none {A : Type} (p : A -> bool) (l : list A) :
  (forall x, In x l -> p x = false) -> filter p l = [].
Proof.
  induction l as [|x l IH]; intro H; [reflexivity|]. cbn [filter].
  rewrite (H x (or_introl eq_refl)). apply IH. intros y Hy. apply H. right. exact Hy.
Qed.

Lemma expr_col_length adata (m : Cell -> bool) (g : string) :
  length (expr_col adata m g) = count m (obs adata).
Proof. unfold expr_col, count. apply length_map. Qed.

(** What membership in the returned list means, stage by stage. *)
Lemma cascade_member gw cfg adata ct passed g :
  filter_genes_by_conditions gw cfg adata ct = Ok passed -> In g passed ->
  In g (var_names adata)
  /\ stage1_keep cfg adata ct g = true
  /\ stage2_keep cfg adata ct g = true
  /\ stage4_keep cfg adata ct g = true.
Proof.
  unfold filter_genes_by_conditions. intros H I.
  apply bind_Ok in H. destruct H as (genes3 & S3 & H). inversion H; subst passed; clear H.
  unfold stage4 in I. apply filter_In in I. destruct I as [I3 K4].
  apply (subseq_In _ _ g (stage3_subseq _ _ _ _ _ _ S3)) in I3.
  unfold stage2 in I3. apply filter_In in I3. destruct I3 as [I1 K2].
  unfold stage1 in I1. apply filter_In in I1. destruct I1 as [I0 K1].
  auto.
Qed.

(** With fewer than two cells of the target type (an unknown type name,
    say) the sample standard deviation is NaN for every gene: Stage 1
    rejects them all and the cascade returns the empty list without an
    exception. *)
Theorem cascade_empty_below_two_target_cells gw cfg adata ct :
  (count (is_type ct) (obs adata) < 2)%nat ->
  stage1 cfg adata ct = [] /\ filter_genes_by_conditions gw cfg adata ct = Ok [].
Proof.
  intro H.
  assert (S1 : stage1 cfg adata ct = []).
  { unfold stage1. apply filter_none. intros g _. unfold stage1_keep, Pandas.std_gt.
    rewrite expr_col_length. apply Nat.ltb_lt in H. rewrite H. reflexivity. }
  split; [exact S1|]. unfold filter_genes_by_conditions. rewrite S1. reflexivity.
Qed.

Lemma cascade_empty_below_two_target_cells_witness :
  filter_genes_by_conditions kernel5 notebook_config toy "Myofibroblast"%string = Ok [].
Proof.
  apply (proj2 (cascade_empty_below_two_target_cells kernel5 notebook_config toy
                  "Myofibroblast"%string ltac:(vm_compute; lia))).
Defined.

Lemma Qlen_cons {A : Type} (x : A) (l : list A) : Qlen (x :: l) == Qlen l + 1.
Proof.
  unfold Qlen. cbn [length]. rewrite Nat2Z.inj_succ. unfold Z.succ.
  rewrite inject_Z_plus. reflexivity.
Qed.

Lemma Qsum_const (xs : list Q) (v : Q) :
  Forall (fun x => x == v) xs -> Qsum xs == Qlen xs * v.
Proof.
  induction 1 as [|x xs Hx _ IH].
  - unfold Qlen. simpl. ring.
  - rewrite Qsum_cons, Qlen_cons, IH, Hx. ring.
Qed.

Lemma Qsum_zero (xs : list Q) : Forall (fun x => x == 0) xs -> Qsum xs == 0.
Proof.
  intro H. rewrite (Qsum_const xs 0 H). ring.
Qed.

Lemma Qsum_indicator {A : Type} (p : A -> bool) (l : list A) :
  Qsum (map (fun b : bool => if b then 1 else 0) (map p l))
  == inject_Z (Z.of_nat (count p l)).
Proof.
  unfold count. induction l as [|x l IH]; [reflexivity|].
  cbn [map filter]. rewrite Qsum_cons, IH. destruct (p x).
  - cbn [length]. rewrite Nat2Z.inj_succ. unfold Z.succ. rewrite inject_Z_plus.
    change (inject_Z 1) with 1. ring.
  - ring.
Qed.

(** Stage 1 removes undetected genes: with a non-negative
    [min_fraction_target], a gene that no target cell expresses (no
    value above 0) fails the test and is absent from the list of
    Stage 1, whatever its standard deviation. *)
Theorem stage1_rejects_undetected cfg adata ct g :
  0 <= min_fraction_target cfg ->
  Forall (fun x => x <= 0) (expr_col adata (is_type ct) g) ->
  stage1_keep cfg adata ct g = false /\ ~ In g (stage1 cfg adata ct).
Proof.
  intros T H.
  assert (K : stage1_keep cfg adata ct g = false).
  { unfold stage1_keep. apply andb_false_iff. right.
    unfold bool_mean. destruct (expr_col adata (is_type ct) g) as [|x xs] eqn:E;
      [reflexivity|].
    rewrite <- E in *. unfold mean.
    destruct (map _ (map (Qltb 0) _)) as [|y ys] eqn:M; [reflexivity|].
    rewrite <- M. cbn [fgt]. apply Qltb_ge.
    rewrite Qsum_indicator.
    assert (C : count (Qltb 0) (expr_col adata (is_type ct) g) = 0%nat).
    { unfold count. rewrite filter_none; [reflexivity|].
      intros z Hz. apply Qltb_ge. apply (proj1 (Forall_forall _ _) H z Hz). }
    rewrite C. unfold Qdiv. rewrite Qmult_0_l. exact T. }
  split; [exact K|]. unfold stage1. intro I. apply filter_In in I.
  destruct I as [_ I]. congruence.
Qed.

Lemma stage1_rejects_undetected_witness :
  stage1_keep notebook_config toy "Endothelial" "GeneB" = false
  /\ ~ In "GeneB"%string (stage1 notebook_config toy "Endothelial").
Proof.
  apply (stage1_rejects_undetected notebook_config toy "Endothelial"%string "GeneB"%string).
  - vm_compute. discriminate.
  - repeat constructor; vm_compute; discriminate.
Defined.

Lemma Qle_div_iff (a b c : Q) : 0 < c -> (a <= b / c <-> a * c <= b).
Proof.
  intro Hc. split; intro H.
  - assert (E : b / c * c == b) by (field; lra).
    rewrite <- E. apply Qmult_le_compat_r; [exact H|lra].
  - apply Qle_shift_div_l; assumption.
Qed.

Lemma inject_nat_pos (n : nat) : (0 < n)%nat -> 0 < inject_Z (Z.of_nat n).
Proof. intro H. change 0 with (inject_Z 0). rewrite <- Zlt_Qlt. lia. Qed.

Lemma inject_nat_le (n m : nat) :
  (n <= m)%nat -> inject_Z (Z.of_nat n) <= inject_Z (Z.of_nat m).
Proof. intro H. rewrite <- Zle_Qle. lia. Qed.

Lemma count_le_mono {A : Type} (p q : A -> bool) (l : list A) :
  (forall x, q x = true -> p x = true) -> (count q l <= count p l)%nat.
Proof.
  intro H. unfold count. induction l as [|x l IH]; [apply le_n|].
  cbn [filter]. destruct (q x) eqn:Q0.
  - rewrite (H x Q0). cbn [length]. lia.
  - destruct (p x); cbn [length]; lia.
Qed.

(** Stage 2 in counts: a gene is kept exactly when some target cell
    expresses it and the target cells that express it and lie in a
    fibrotic niche are at least the threshold share of them.  With no
    expressing target cell the fraction is NaN and the gene is rejected
    whatever the threshold, a non-positive one included. *)
Theorem stage2_keep_counts cfg adata ct g :
  let expressing := count (fun c => is_type ct c && expressed adata g c) (obs adata) in
  let both := count (fun c => is_type ct c && (expressed adata g c && in_fibrotic cfg c))
                    (obs adata) in
  stage2_keep cfg adata ct g = true
  <-> (0 < expressing)%nat
      /\ fib_fraction_threshold cfg * inject_Z (Z.of_nat expressing)
         <= inject_Z (Z.of_nat both).
Proof.
  intros expressing both. unfold stage2_keep, bool_mean.
  assert (B : count (in_fibrotic cfg)
                (filter (fun c => is_type ct c && expressed adata g c) (obs adata)) = both).
  { unfold both, count. rewrite filter_filter. f_equal. apply filter_ext.
    intro c. symmetry. apply andb_assoc. }
  assert (L : length (filter (fun c => is_type ct c && expressed adata g c) (obs adata))
              = expressing) by reflexivity.
  pose proof (Qsum_indicator (in_fibrotic cfg)
                (filter (fun c => is_type ct c && expressed adata g c) (obs adata))) as S.
  rewrite B in S.
  destruct (filter (fun c => is_type ct c && expressed adata g c) (obs adata))
    as [|c cs] eqn:F.
  - cbn [map mean fge]. cbn [length] in L. split; [discriminate|]. intros [H _]. lia.
  - assert (P : (0 < expressing)%nat) by (rewrite <- L; cbn [length]; lia).
    cbn [map] in S |- *. rewrite mean_cons. cbn [fge].
    rewrite Qle_bool_iff, S. unfold Qlen. cbn [length] in L |- *.
    rewrite !length_map, L.
    rewrite (Qle_div_iff _ _ _ (inject_nat_pos _ P)). tauto.
Qed.

(** ** Series entries *)

Lemma series_of_entries {V : Type} (f : string -> result V) (genes : list string) :
  forall acc series,
    series_of f genes acc = Ok series ->
    forall k v, dict_get series k = Some v ->
                (In k genes /\ f k = Ok v) \/ (~ In k genes /\ dict_get acc k = Some v).
Proof.
  induction genes as [|g rest IH]; intros acc series H k v G.
  - inversion H; subst. right. split; [tauto|exact G].
  - cbn [series_of] in H. apply bind_Ok in H. destruct H as (v0 & F & H).
    destruct (IH _ _ H k v G) as [[I E]|[NI E]].
    + left. split; [right; exact I|exact E].
    + destruct (string_dec k g) as [->|NE].
      * rewrite dict_get_set_same in E. inversion E; subst. left. split; [left; reflexivity|exact F].
      * rewrite dict_get_set_other in E by exact NE.
        right. split; [|exact E]. intros [->|I]; [congruence|contradiction].
Qed.

Lemma fib_fraction_range cfg adata ct g q :
  fib_fraction cfg adata ct g = Ok q -> 0 <= q /\ q <= 1.
Proof.
  unfold fib_fraction. destruct (index_of g (var_names adata)); [|discriminate].
  intro H. inversion H; subst q; clear H.
  set (tgt := filter (is_type ct) (obs adata)).
  assert (M : (0 < Nat.max (count (expressed adata g) tgt) 1)%nat) by lia.
  assert (B : (count (fun c => expressed adata g c && in_fibrotic cfg c) tgt
               <= Nat.max (count (expressed adata g) tgt) 1)%nat).
  { etransitivity; [apply (count_le_mono (expressed adata g))|lia].
    intros c Hc. apply andb_true_iff in Hc. tauto. }
  pose proof (inject_nat_pos _ M) as P. pose proof (inject_nat_le _ _ B) as Lq.
  split.
  - apply Qle_shift_div_l; [exact P|]. rewrite Qmult_0_l.
    change 0 with (inject_Z 0). rewrite <- Zle_Qle. lia.
  - apply Qle_shift_div_r; [exact P|]. rewrite Qmult_1_l. exact Lq.
Qed.

(** Every value of the series of [calc_fib_fraction] lies between 0 and
    1 and belongs to a gene of the list given. *)
Theorem calc_fib_fraction_range cfg adata genes ct series g q :
  calc_fib_fraction cfg adata genes ct = Ok series ->
  dict_get series g = Some q ->
  In g genes /\ 0 <= q /\ q <= 1.
Proof.
  intros H G. destruct (series_of_entries _ _ _ _ H g q G) as [[I E]|[_ E]];
    [|discriminate].
  split; [exact I|]. apply (fib_fraction_range cfg adata ct g q E).
Qed.

Lemma calc_fib_fraction_range_witness :
  0 <= (6 # 1) / (7 # 1) /\ (6 # 1) / (7 # 1) <= 1.
Proof.
  apply (calc_fib_fraction_range four_bins toy ["GeneA"%string; "GeneB"%string] fibroblast
           [("GeneA"%string, (6 # 1) / (7 # 1)); ("GeneB"%string, (6 # 1) / (8 # 1))]
           "GeneA"%string ((6 # 1) / (7 # 1)) eq_refl eq_refl).
Defined.

(** A gene that is not a column of the table makes either scorer raise
    [KeyError] for the whole list, wherever the gene stands in it (for
    the distance scorer, on a table with a cell in the fibrotic niches
    to build the tree from). *)
Theorem scorers_raise_on_missing_gene dist cfg adata genes ct g :
  In g genes -> ~ In g (var_names adata) ->
  (forall g', In g' genes -> g' <> g -> In g' (var_names adata)) ->
  calc_fib_fraction cfg adata genes ct = Raise KeyError
  /\ (filter (in_fibrotic cfg) (obs adata) <> [] ->
      calc_avg_distance dist cfg adata genes ct = Raise KeyError).
Proof.
  intros I NI Others.
  assert (N : index_of g (var_names adata) = None).
  { clear I Others. induction (var_names adata) as [|n r IH]; [reflexivity|].
    cbn [index_of]. destruct (String.eqb g n) eqn:E.
    - apply String.eqb_eq in E. subst. exfalso. apply NI. left. reflexivity.
    - rewrite IH; [reflexivity|]. intro H. apply NI. right. exact H. }
  assert (G : forall (V : Type) (f : string -> result V),
            f g = Raise KeyError ->
            (forall g', In g' genes -> g' <> g -> exists v, f g' = Ok v) ->
            forall acc, series_of f genes acc = Raise KeyError).
  { intros V f Fg Fo. clear Others. induction genes as [|h rest IH]; [destruct I|].
    intro acc. cbn [series_of]. destruct (string_dec h g) as [->|NE].
    - rewrite Fg. reflexivity.
    - destruct (Fo h (or_introl eq_refl) NE) as [v ->]. cbn [bind].
      apply IH; [destruct I; [congruence|assumption]|].
      intros g' I' NE'. apply Fo; [right; exact I'|exact NE']. }
  split.
  - apply G.
    + unfold fib_fraction. rewrite N. reflexivity.
    + intros g' I' NE. unfold fib_fraction.
      destruct (index_of_In g' _ (Others g' I' NE)) as [j ->]. eauto.
  - intros _. apply G.
    + unfold avg_distance. rewrite N. reflexivity.
    + intros g' I' NE. unfold avg_distance.
      destruct (index_of_In g' _ (Others g' I' NE)) as [j ->].
      destruct (existsb _ _); eauto.
Qed.

Lemma scorers_raise_on_missing_gene_witness :
  calc_fib_fraction four_bins toy ["GeneA"%string; "Cthrc1"%string; "GeneB"%string] fibroblast
  = Raise KeyError.
Proof.
  apply (proj1 (scorers_raise_on_missing_gene euclid four_bins toy
                  ["GeneA"%string; "Cthrc1"%string; "GeneB"%string] fibroblast
                  "Cthrc1"%string
                  ltac:(simpl; tauto)
                  ltac:(simpl; intros [H|[H|[]]]; discriminate)
                  ltac:(simpl; intros g' [<-|[<-|[<-|[]]]] NE; tauto))).
Defined.

(** ** The scorers on the output of the cascade *)

Lemma fgt_not_NaN (a : fval) (t : Q) : fgt a t = true -> a <> NaN.
Proof. destruct a; simpl; congruence. Qed.

Lemma stage4_keep_fibrotic_cell cfg adata ct g :
  stage4_keep cfg adata ct g = true -> filter (fibm cfg ct) (obs adata) <> [].
Proof.
  unfold stage4_keep. destruct (forallb _ _); [discriminate|].
  intros H E. apply fgt_not_NaN in H. apply H. unfold fc.
  destruct (fadd _ eps); try reflexivity.
  unfold expr_col. rewrite E. reflexivity.
Qed.

Lemma filter_nonempty_weaken {A : Type} (p q : A -> bool) (l : list A) :
  (forall x, p x = true -> q x = true) -> filter p l <> [] -> filter q l <> [].
Proof.
  intros H NE E. apply NE. apply filter_none. intros x Ix.
  destruct (p x) eqn:P; [|reflexivity].
  assert (I : In x (filter q l)) by (apply filter_In; split; [exact Ix|apply H; exact P]).
  rewrite E in I. destruct I.
Qed.

(** For every gene the cascade returns, the niche fraction scorer gives
    a value that is at least [fib_fraction_threshold]: it is the very
    fraction Stage 2 tested, and the floor of the denominator plays no
    part. *)
Theorem cascade_output_fraction_above_threshold gw cfg adata ct passed :
  filter_genes_by_conditions gw cfg adata ct = Ok passed ->
  exists series,
    calc_fib_fraction cfg adata passed ct = Ok series
    /\ forall g, In g passed ->
       exists q, dict_get series g = Some q /\ fib_fraction_threshold cfg <= q.
Proof.
  intro H.
  set (val := fun g =>
    inject_Z (Z.of_nat (count (fun c => expressed adata g c && in_fibrotic cfg c)
                              (filter (is_type ct) (obs adata))))
    / inject_Z (Z.of_nat (Nat.max (count (expressed adata g)
                                         (filter (is_type ct) (obs adata))) 1))).
  destruct (series_of_get (fib_fraction cfg adata ct) val passed)
    with (acc := @nil (string * Q)) as (series & E & Hin & _).
  - intros g I. destruct (cascade_member _ _ _ _ _ _ H I) as (Iv & _).
    unfold fib_fraction. destruct (index_of_In g _ Iv) as [j ->]. reflexivity.
  - exists series. split; [exact E|]. intros g I. exists (val g).
    split; [apply Hin; exact I|].
    destruct (cascade_member _ _ _ _ _ _ H I) as (_ & _ & K2 & _).
    apply stage2_keep_counts in K2. destruct K2 as [P T].
    unfold val, count in *. rewrite !filter_filter.
    replace (Nat.max _ 1) with
      (length (filter (fun c => is_type ct c && expressed adata g c) (obs adata))) by lia.
    apply Qle_div_iff; [apply inject_nat_pos; exact P|exact T].
Qed.

Lemma cascade_output_fraction_above_threshold_witness :
  exists series,
    calc_fib_fraction four_bins toy ["GeneA"%string] fibroblast = Ok series
    /\ exists q, dict_get series "GeneA"%string = Some q
                 /\ fib_fraction_threshold four_bins <= q.
Proof.
  destruct (cascade_output_fraction_above_threshold kernel5 four_bins toy fibroblast
              ["GeneA"%string] ltac:(vm_compute; reflexivity)) as (series & E & H).
  exists series. split; [exact E|]. apply H. left. reflexivity.
Defined.

(** For every gene the cascade returns, the distance scorer gives a
    finite number, never NaN: Stage 2 left a target cell that expresses
    the gene and Stage 4 a target cell in a fibrotic niche, so the tree
    is not empty either; and no [KeyError] is raised. *)
Theorem cascade_output_distance_defined gw dist cfg adata ct passed :
  filter_genes_by_conditions gw cfg adata ct = Ok passed ->
  exists series,
    calc_avg_distance dist cfg adata passed ct = Ok series
    /\ forall g, In g passed -> exists d, dict_get series g = Some (Fin d).
Proof.
  intro H.
  assert (V : forall g, In g passed -> exists d, avg_distance dist cfg adata ct g = Ok (Fin d)).
  { intros g I. destruct (cascade_member _ _ _ _ _ _ H I) as (Iv & _ & K2 & K4).
    unfold avg_distance. destruct (index_of_In g _ Iv) as [j ->].
    apply stage2_keep_counts in K2. destruct K2 as [P _].
    apply stage4_keep_fibrotic_cell in K4.
    apply (filter_nonempty_weaken _ (in_fibrotic cfg)) in K4;
      [|intros c Hc; unfold fibm in Hc; apply andb_true_iff in Hc; tauto].
    rewrite existsb_filter, filter_filter.
    unfold count in P.
    destruct (filter (fun x => is_type ct x && expressed adata g x) (obs adata))
      as [|c cs]; [cbn [length] in P; lia|].
    destruct (filter (in_fibrotic cfg) (obs adata)) as [|f fs]; [congruence|].
    cbn [negb map Scipy.query_mean]. rewrite mean_cons. eauto. }
  set (val := fun g => match avg_distance dist cfg adata ct g with
                       | Ok v => v | Raise _ => NaN end).
  destruct (series_of_get (avg_distance dist cfg adata ct) val passed)
    with (acc := @nil (string * fval)) as (series & E & Hin & _).
  - intros g I. destruct (V g I) as [d Ed]. unfold val. rewrite Ed. reflexivity.
  - exists series. split; [exact E|]. intros g I. destruct (V g I) as [d Ed].
    exists d. rewrite (Hin g I). unfold val. rewrite Ed. reflexivity.
Qed.

Lemma cascade_output_distance_defined_witness :
  exists series,
    calc_avg_distance euclid four_bins toy ["GeneA"%string] fibroblast = Ok series
    /\ exists d, dict_get series "GeneA"%string = Some (Fin d).
Proof.
  destruct (cascade_output_distance_defined kernel5 euclid four_bins toy fibroblast
              ["GeneA"%string] ltac:(vm_compute; reflexivity)) as (series & E & H).
  exists series. split; [exact E|]. apply H. left. reflexivity.
Defined.

(** The tree is built from all cells of the fibrotic niches, the target
    cells among them: a gene whose expressing target cells all lie in
    fibrotic niches has mean distance 0, for any distance that is
    non-negative and 0 from a point to itself. *)
Theorem avg_distance_zero_inside_fibrotic_niches dist cfg adata ct g :
  (forall p, dist p p == 0) -> (forall p q, 0 <= dist p q) ->
  In g (var_names adata) ->
  filter (fun c => is_type ct c && expressed adata g c) (obs adata) <> [] ->
  (forall c, In c (obs adata) -> is_type ct c = true -> expressed adata g c = true ->
             in_fibrotic cfg c = true) ->
  exists d, avg_distance dist cfg adata ct g = Ok (Fin d) /\ d == 0.
Proof.
  intros D0 Dpos Iv NE Hin. unfold avg_distance.
  destruct (index_of_In g _ Iv) as [j ->].
  rewrite existsb_filter, filter_filter.
  destruct (filter (fun x => is_type ct x && expressed adata g x) (obs adata))
    as [|c cs] eqn:F; [congruence|]. cbn [negb].
  assert (Cf : forall c', In c' (c :: cs) -> In (spatial c') (map spatial (filter (in_fibrotic cfg) (obs adata)))).
  { intros c' I. rewrite <- F in I. apply filter_In in I. destruct I as [Io Hm].
    apply andb_true_iff in Hm. destruct Hm as [Ht He].
    apply in_map. apply filter_In. split; [exact Io|apply Hin; assumption]. }
  destruct (map spatial (filter (in_fibrotic cfg) (obs adata))) as [|f fs] eqn:Ef.
  { destruct (Cf c (or_introl eq_refl)). }
  cbn [map Scipy.query_mean]. rewrite mean_cons. eexists. split; [reflexivity|].
  apply Qdiv_zero_iff; [apply Qlen_pos|].
  apply Qsum_zero. apply Forall_forall. intros m Hm.
  change (In m (map (fun p => fold_left Qmin (map (dist p) fs) (dist p f))
                    (map spatial (c :: cs)))) in Hm.
  rewrite map_map in Hm. apply in_map_iff in Hm. destruct Hm as (c' & <- & Ic').
  destruct (query_is_nearest dist f fs (spatial c')) as [(f' & _ & Em) Hle].
  pose proof (Hle (spatial c') (Cf c' Ic')) as U. rewrite D0 in U.
  pose proof (Dpos (spatial c') f') as Lo. rewrite <- Em in Lo.
  apply Qle_antisym; assumption.
Qed.

Lemma avg_distance_zero_inside_fibrotic_niches_witness :
  exists d, avg_distance (fun p q => Qabs.Qabs (fst p - fst q) + Qabs.Qabs (snd p - snd q))
              four_bins toy_no_remote_target fibroblast "GeneA" = Ok (Fin d) /\ d == 0.
Proof.
  apply avg_distance_zero_inside_fibrotic_niches.
  - intro p. setoid_replace (fst p - fst p) with 0 by ring.
    setoid_replace (snd p - snd p) with 0 by ring. reflexivity.
  - intros p q. pose proof (Qabs.Qabs_nonneg (fst p - fst q)).
    pose proof (Qabs.Qabs_nonneg (snd p - snd q)). lra.
  - simpl. tauto.
  - vm_compute. discriminate.
  - intros c Ic. simpl in Ic.
    repeat (destruct Ic as [<-|Ic]; [vm_compute; intros; congruence|]). destruct Ic.
Defined.

(** ** Stage 4 at its edges *)

(** [rem_vals.eq(0).all()] is true on no value at all: when no target
    cell lies in the remote niche, every gene is rejected at Stage 4 and
    the cascade, if it returns, returns the empty list. *)
Theorem cascade_empty_without_remote_target_cells gw cfg adata ct passed :
  filter (remm cfg ct) (obs adata) = [] ->
  filter_genes_by_conditions gw cfg adata ct = Ok passed ->
  passed = [].
Proof.
  intros E H. destruct passed as [|g rest]; [reflexivity|exfalso].
  destruct (cascade_member _ _ _ _ _ _ H (or_introl eq_refl)) as (_ & _ & _ & K4).
  unfold stage4_keep, expr_col in K4. rewrite E in K4. discriminate.
Qed.

Lemma cascade_empty_without_remote_target_cells_witness :
  filter_genes_by_conditions kernel5 four_bins toy_no_remote_target fibroblast = Ok [].
Proof.
  destruct (filter_genes_by_conditions kernel5 four_bins toy_no_remote_target fibroblast)
    as [passed|e] eqn:E; [|vm_compute in E; discriminate].
  f_equal.
  apply (cascade_empty_without_remote_target_cells kernel5 four_bins toy_no_remote_target
           fibroblast passed); [vm_compute; reflexivity|exact E].
Defined.

Lemma subseq_filter_impl {A : Type} (p q : A -> bool) (l : list A) :
  (forall x, p x = true -> q x = true) -> subseq (filter p l) (filter q l).
Proof.
  intro H. induction l as [|x l IH]; [constructor|]. cbn [filter].
  destruct (p x) eqn:P.
  - rewrite (H x P). apply subseq_keep. exact IH.
  - destruct (q x); [apply subseq_skip|]; exact IH.
Qed.

Lemma stage3_fold_change_threshold gw cfg adata ct t genes2 :
  stage3 gw (set_fold_change_threshold cfg t) adata ct genes2
  = stage3 gw cfg adata ct genes2.
Proof.
  reflexivity.
Qed.

(** Raising the fold-change threshold never adds a gene and never turns
    a run that returned into one that raises: the new output is an
    order-preserving sublist of the old one. *)
Theorem cascade_monotone_in_fold_change_threshold gw cfg adata ct t passed :
  fold_change_threshold cfg <= t ->
  filter_genes_by_conditions gw cfg adata ct = Ok passed ->
  exists passed',
    filter_genes_by_conditions gw (set_fold_change_threshold cfg t) adata ct = Ok passed'
    /\ subseq passed' passed.
Proof.
  intros T H. unfold filter_genes_by_conditions in *.
  change (stage1 (set_fold_change_threshold cfg t) adata ct) with (stage1 cfg adata ct).
  change (stage2 (set_fold_change_threshold cfg t) adata ct) with (stage2 cfg adata ct).
  rewrite stage3_fold_change_threshold.
  apply bind_Ok in H. destruct H as (genes3 & -> & H). inversion H; subst passed; clear H.
  cbn [bind]. eexists. split; [reflexivity|].
  unfold stage4. apply subseq_filter_impl. intros g.
  unfold stage4_keep.
  change (expr_col adata (remm (set_fold_change_threshold cfg t) ct) g)
    with (expr_col adata (remm cfg ct) g).
  destruct (forallb _ _); [discriminate|].
  change (fc (set_fold_change_threshold cfg t) adata ct g) with (fc cfg adata ct g).
  cbn [fold_change_threshold set_fold_change_threshold].
  destruct (fc cfg adata ct g); cbn [fgt]; try congruence.
  rewrite !Qltb_lt. lra.
Qed.

Lemma cascade_monotone_in_fold_change_threshold_witness :
  exists passed',
    filter_genes_by_conditions kernel5 (set_fold_change_threshold four_bins 5) toy fibroblast
    = Ok passed'
    /\ subseq passed' ["GeneA"%string].
Proof.
  apply (cascade_monotone_in_fold_change_threshold kernel5 four_bins toy fibroblast 5
           ["GeneA"%string] ltac:(vm_compute; discriminate) ltac:(vm_compute; reflexivity)).
Defined.

(** ** The shape of what the binner returns *)

Lemma pt_bin_Ok_shape sub N bins codes :
  pt_bin sub N = Ok (bins, codes) ->
  obs sub <> [] /\ length bins = S (Z.to_nat N) /\ length codes = length (obs sub).
Proof.
  unfold pt_bin. intro H.
  destruct (obs sub) as [|c cs] eqn:O; [discriminate|]. split; [discriminate|].
  destruct (series_min _); [|discriminate]. destruct (series_max _); [|discriminate].
  apply bind_Ok in H. destruct H as (bins' & _ & H).
  apply bind_Ok in H. destruct H as (cds & C & H).
  apply bind_Ok in H. destruct H as (ints & A & H). inversion H; subst bins' ints; clear H.
  unfold Pandas.cut in C. destruct (Pandas.decreasing bins); [discriminate|].
  destruct (_ && _); [discriminate|]. destruct bins as [|b0 r]; [discriminate|].
  destruct (Z.to_nat N =? length (b0 :: r) - 1)%nat eqn:L; cbn [negb] in C; [|discriminate].
  apply Nat.eqb_eq in L. split; [cbn [length] in *; lia|].
  inversion C; subst cds; clear C.
  assert (G : forall (l : list (option nat)) ints', Pandas.astype_int l = Ok ints' ->
              length ints' = length l).
  { induction l as [|[k|] l IH]; intros ints' E; cbn [Pandas.astype_int] in E.
    - inversion E. reflexivity.
    - apply bind_Ok in E. destruct E as (r' & Er & E). inversion E; subst.
      cbn [length]. rewrite (IH _ Er). reflexivity.
    - discriminate. }
  rewrite (G _ _ A). cbn [map length]. rewrite ?length_map. reflexivity.
Qed.

Lemma group_row_length (ncols : nat) (df : list (nat * list Q)) (b : nat) :
  length (Pandas.group_row ncols df b) = ncols.
Proof.
  unfold Pandas.group_row. destruct (map snd _).
  - apply repeat_length.
  - rewrite length_map, length_seq. reflexivity.
Qed.

(** Whenever the binner returns, the subset held a cell, the bin count
    was at least 1, and the result is a frame of [num_bins] rows with one
    column per gene together with [num_bins] centres. *)
Theorem get_grouped_data_shape sub N grp ctr :
  get_grouped_data sub N = Ok (grp, ctr) ->
  obs sub <> [] /\ (1 <= N)%Z
  /\ length grp = Z.to_nat N
  /\ Forall (fun row => length row = length (var_names sub)) grp
  /\ length ctr = Z.to_nat N.
Proof.
  intro H. pose proof H as H0. unfold get_grouped_data in H.
  apply bind_Ok in H. destruct H as ([bins codes] & P & H). cbn [fst snd] in H.
  inversion H; subst grp ctr; clear H.
  destruct (pt_bin_Ok_shape _ _ _ _ P) as (NE & Lb & _).
  split; [exact NE|]. split.
  { destruct (Z_le_gt_dec N 0) as [L|G]; [|lia].
    destruct (get_grouped_data_nonpositive sub N NE L) as [e E]. congruence. }
  split; [rewrite length_map, length_seq; reflexivity|]. split.
  - apply Forall_forall. intros row I. apply in_map_iff in I.
    destruct I as (b & <- & _). apply group_row_length.
  - rewrite length_map, length_combine, removelast_length, length_tl, Lb. lia.
Qed.

Lemma get_grouped_data_shape_witness :
  exists grp ctr,
    get_grouped_data
      (subset toy (fun c => is_type fibroblast c && in_niche "Ultraproximal" c)) 4
    = Ok (grp, ctr)
    /\ length grp = 4%nat /\ length ctr = 4%nat.
Proof.
  destruct (get_grouped_data
              (subset toy (fun c => is_type fibroblast c && in_niche "Ultraproximal" c)) 4)
    as [[grp ctr]|e] eqn:E; [|vm_compute in E; discriminate].
  exists grp, ctr. split; [reflexivity|].
  destruct (get_grouped_data_shape _ _ _ _ E) as (_ & _ & Lg & _ & Lc). split; assumption.
Defined.

(** ** Smoothing, derivative and the Stage-3 test *)






















(** ** Series keys and the table of Figure 6A *)

Lemma dict_set_keys {V : Type} (d : list (string * V)) (k : string) (v : V) :
  map fst (dict_set d k v)
  = if in_dec string_dec k (map fst d) then map fst d else map fst d ++ [k].
Proof.
  induction d as [|[k' v'] r IH]; [reflexivity|]. cbn [dict_set map fst].
  destruct (String.eqb k k') eqn:E.
  - apply String.eqb_eq in E. subst k'.
    destruct (in_dec string_dec k (k :: map fst r)) as [_|N]; [reflexivity|].
    exfalso. apply N. left. reflexivity.
  - apply String.eqb_neq in E. cbn [map fst]. rewrite IH.
    destruct (in_dec string_dec k (map fst r)) as [I|N];
      destruct (in_dec string_dec k (k' :: map fst r)) as [I'|N']; try reflexivity.
    + exfalso. apply N'. right. exact I.
    + exfalso. destruct I' as [->|I']; [congruence|contradiction].
Qed.

Lemma series_of_keys {V : Type} (f : string -> result V) (genes : list string) :
  forall acc series,
    series_of f genes acc = Ok series -> NoDup (map fst acc) ->
    NoDup (map fst series)
    /\ forall k, In k (map fst series) <-> In k (map fst acc) \/ In k genes.
Proof.
  induction genes as [|g rest IH]; intros acc series H ND.
  - inversion H; subst. split; [exact ND|]. intro k. cbn [In]. tauto.
  - cbn [series_of] in H. apply bind_Ok in H. destruct H as (v & _ & H).
    assert (K := dict_set_keys acc g v).
    assert (ND' : NoDup (map fst (dict_set acc g v))).
    { rewrite K. destruct (in_dec string_dec g (map fst acc)) as [I|N]; [exact ND|].
      apply NoDup_app; [exact ND|constructor; [intros []|constructor]|].
      intros x Ix [<-|[]]. contradiction. }
    destruct (IH _ _ H ND') as (N1 & N2). split; [exact N1|].
    intro k. rewrite N2, K. cbn [In].
    destruct (in_dec string_dec g (map fst acc)) as [I|N].
    + split; [tauto|]. intros [A|[<-|B]]; tauto.
    + rewrite in_app_iff. cbn [In]. tauto.
Qed.

Lemma dict_set_fresh {V : Type} (d : list (string * V)) (k : string) (v : V) :
  ~ In k (map fst d) -> dict_set d k v = d ++ [(k, v)].
Proof.
  induction d as [|[k' v'] r IH]; intro N; [reflexivity|]. cbn [dict_set].
  destruct (String.eqb k k') eqn:E.
  - apply String.eqb_eq in E. subst. exfalso. apply N. left. reflexivity.
  - cbn [app]. rewrite IH; [reflexivity|]. intro I. apply N. right. exact I.
Qed.

Lemma series_of_fresh {V : Type} (f : string -> result V) (genes : list string) :
  NoDup genes ->
  forall acc series,
    (forall g, In g genes -> ~ In g (map fst acc)) ->
    series_of f genes acc = Ok series ->
    exists tail,
      series = acc ++ tail
      /\ Forall2 (fun g kv => fst kv = g /\ f g = Ok (snd kv)) genes tail.
Proof.
  induction 1 as [|g rest NI ND IH]; intros acc series Fr H.
  - inversion H; subst. exists []. rewrite app_nil_r. split; [reflexivity|constructor].
  - cbn [series_of] in H. apply bind_Ok in H. destruct H as (v & Fg & H).
    rewrite dict_set_fresh in H by (apply Fr; left; reflexivity).
    destruct (IH (acc ++ [(g, v)]) series) as (tail & -> & F2).
    + intros g' I'. rewrite map_app, in_app_iff. cbn [map fst In].
      intros [A|[<-|[]]]; [apply (Fr g' (or_intror I')); exact A|contradiction].
    + exact H.
    + exists ((g, v) :: tail). rewrite <- app_assoc. split; [reflexivity|].
      constructor; [split; [reflexivity|exact Fg]|exact F2].
Qed.

(** The series of both scorers have one entry per distinct gene of the
    list given and no other key; when the list has no repetition the
    entries stand in the order of the list, so that [.values] lines up
    with [genes]. *)
Theorem scorer_series_keys dist cfg adata genes ct :
  (forall series, calc_fib_fraction cfg adata genes ct = Ok series ->
     NoDup (map fst series)
     /\ (forall k, In k (map fst series) <-> In k genes)
     /\ (NoDup genes -> map fst series = genes))
  /\ (forall series, calc_avg_distance dist cfg adata genes ct = Ok series ->
        NoDup (map fst series)
        /\ (forall k, In k (map fst series) <-> In k genes)
        /\ (NoDup genes -> map fst series = genes)).
Proof.
  assert (G : forall (V : Type) (f : string -> result V) series,
            series_of f genes [] = Ok series ->
            NoDup (map fst series)
            /\ (forall k, In k (map fst series) <-> In k genes)
            /\ (NoDup genes -> map fst series = genes)).
  { intros V f series H.
    destruct (series_of_keys f genes [] series H (NoDup_nil _)) as (N1 & N2).
    split; [exact N1|]. split; [intro k; rewrite N2; cbn [map In]; tauto|].
    intro ND. destruct (series_of_fresh f genes ND [] series (fun _ _ F => F) H)
      as (tail & -> & F2). cbn [app].
    clear H N1 N2 ND. induction F2 as [|g kv gs tl [E _] _ IH]; [reflexivity|].
    cbn [map]. rewrite E, IH. reflexivity. }
  split; intros series H; apply (G _ _ _ H).
Qed.

Lemma subseq_NoDup {A : Type} (l1 l2 : list A) : subseq l1 l2 -> NoDup l2 -> NoDup l1.
Proof.
  induction 1 as [|x l1 l2 H IH|x l1 l2 H IH]; intro ND.
  - constructor.
  - inversion ND; subst. apply IH. assumption.
  - inversion ND as [|? ? NI ND']; subst. constructor; [|apply IH; exact ND'].
    intro I. apply NI. apply (subseq_In _ _ x H I).
Qed.

Lemma cascade_subseq_var_names gw cfg adata ct passed :
  filter_genes_by_conditions gw cfg adata ct = Ok passed -> subseq passed (var_names adata).
Proof.
  unfold filter_genes_by_conditions. intro H.
  apply bind_Ok in H. destruct H as (genes3 & S3 & H). inversion H; subst passed; clear H.
  eapply subseq_trans; [apply subseq_filter|].
  eapply subseq_trans; [apply (stage3_subseq _ _ _ _ _ _ S3)|].
  eapply subseq_trans; apply subseq_filter.
Qed.

Lemma Forall2_length_eq {A B : Type} (P : A -> B -> Prop) (l : list A) (l' : list B) :
  Forall2 P l l' -> length l = length l'.
Proof. induction 1; cbn [length]; congruence. Qed.

Lemma frame6a_rows (genes : list string) (As Bs : list fval) (Cs : list Q)
  (R1 R2 : string -> fval -> Prop) (R3 : string -> Q -> Prop) :
  Forall2 R1 genes As -> Forall2 R2 genes Bs -> Forall2 R3 genes Cs ->
  exists rows,
    frame6a genes As Bs Cs = Ok rows
    /\ Forall2 (fun g row => row_gene row = g /\ R1 g (row_log2_fc_arg row)
                             /\ R2 g (row_avg_distance row)
                             /\ R3 g (row_fib_fraction row)) genes rows.
Proof.
  intros F1 F2 F3. unfold frame6a.
  rewrite <- (Forall2_length_eq _ _ _ F1), <- (Forall2_length_eq _ _ _ F2),
    <- (Forall2_length_eq _ _ _ F3), !Nat.eqb_refl. cbn [andb].
  eexists. split; [reflexivity|].
  revert Bs Cs F2 F3. induction F1 as [|g a genes As Ha F1 IH]; intros Bs Cs F2 F3.
  - constructor.
  - inversion F2 as [|? b ? Bs' Hb F2']; subst. inversion F3 as [|? c ? Cs' Hc F3']; subst.
    cbn [combine map fst snd]. constructor; [auto|]. apply IH; assumption.
Qed.

Lemma cascade_member_distance gw dist cfg adata ct passed g :
  filter_genes_by_conditions gw cfg adata ct = Ok passed -> In g passed ->
  exists d, avg_distance dist cfg adata ct g = Ok (Fin d).
Proof.
  intros H I. destruct (cascade_member _ _ _ _ _ _ H I) as (Iv & _ & K2 & K4).
  unfold avg_distance. destruct (index_of_In g _ Iv) as [j ->].
  apply stage2_keep_counts in K2. destruct K2 as [P _].
  apply stage4_keep_fibrotic_cell in K4.
  apply (filter_nonempty_weaken _ (in_fibrotic cfg)) in K4;
    [|intros c Hc; unfold fibm in Hc; apply andb_true_iff in Hc; tauto].
  rewrite existsb_filter, filter_filter. unfold count in P.
  destruct (filter (fun x => is_type ct x && expressed adata g x) (obs adata))
    as [|c cs]; [cbn [length] in P; lia|].
  destruct (filter (in_fibrotic cfg) (obs adata)) as [|f fs]; [congruence|].
  cbn [negb map Scipy.query_mean]. rewrite mean_cons. eauto.
Qed.

Lemma series_of_total {V : Type} (f : string -> result V) (genes : list string) :
  (forall g, In g genes -> exists v, f g = Ok v) ->
  forall acc, exists series, series_of f genes acc = Ok series.
Proof.
  induction genes as [|g rest IH]; intros H acc; [eexists; reflexivity|].
  cbn [series_of]. destruct (H g (or_introl eq_refl)) as [v ->]. cbn [bind].
  apply IH. intros g' I. apply H. right. exact I.
Qed.

Lemma Forall2_snd {V : Type} (f : string -> result V) (genes : list string)
  (tail : list (string * V)) :
  Forall2 (fun g kv => fst kv = g /\ f g = Ok (snd kv)) genes tail ->
  Forall2 (fun g v => f g = Ok v) genes (map snd tail).
Proof.
  induction 1 as [|g kv gs tl [_ E] _ IH]; cbn [map]; constructor; assumption.
Qed.

(** On a table whose gene names are distinct, the table of Figure 6A is
    built without a length mismatch whenever the cascade returns a gene:
    it has one row per returned gene, in the order of the cascade, and
    each row carries that gene's own fold-change argument, distance and
    fraction.  When the cascade returns no gene, no table is built; when
    it raises, so does the cell. *)
Theorem figure6a_table_rows gw dist cfg adata ct :
  NoDup (var_names adata) ->
  (forall passed,
     filter_genes_by_conditions gw cfg adata ct = Ok passed -> passed <> [] ->
     exists rows,
       figure6a_table gw dist cfg adata ct = Ok (Some rows)
       /\ Forall2 (fun g row =>
                     row_gene row = g
                     /\ row_log2_fc_arg row = log2fc_arg cfg adata ct g
                     /\ avg_distance dist cfg adata ct g = Ok (row_avg_distance row)
                     /\ fib_fraction cfg adata ct g = Ok (row_fib_fraction row))
                  passed rows)
  /\ (filter_genes_by_conditions gw cfg adata ct = Ok [] ->
      figure6a_table gw dist cfg adata ct = Ok None)
  /\ (raises (filter_genes_by_conditions gw cfg adata ct) ->
      raises (figure6a_table gw dist cfg adata ct)).
Proof.
  intro NDv. split; [|split].
  - intros passed H NE. unfold figure6a_table. rewrite H. cbn [bind].
    destruct passed as [|g0 rest] eqn:EP; [congruence|]. rewrite <- EP in *.
    clear NE.
    assert (ND : NoDup passed)
      by (apply (subseq_NoDup _ _ (cascade_subseq_var_names _ _ _ _ _ H) NDv)).
    destruct (series_of_total (avg_distance dist cfg adata ct) passed) with (acc := @nil (string * fval))
      as [dists Ed].
    { intros g I. destruct (cascade_member_distance gw dist _ _ _ _ g H I) as [d E]. eauto. }
    destruct (series_of_total (fib_fraction cfg adata ct) passed) with (acc := @nil (string * Q))
      as [fracs Ef].
    { intros g I. destruct (cascade_member _ _ _ _ _ _ H I) as (Iv & _).
      unfold fib_fraction. destruct (index_of_In g _ Iv) as [j ->]. eauto. }
    unfold calc_avg_distance, calc_fib_fraction. rewrite Ed, Ef. cbn [bind].
    destruct (series_of_fresh _ passed ND [] dists (fun _ _ F => F) Ed) as (td & -> & Fd).
    destruct (series_of_fresh _ passed ND [] fracs (fun _ _ F => F) Ef) as (tf & -> & Ff).
    cbn [app].
    destruct (frame6a_rows passed (map (log2fc_arg cfg adata ct) passed) (map snd td)
                (map snd tf)
                (fun g a => a = log2fc_arg cfg adata ct g)
                (fun g b => avg_distance dist cfg adata ct g = Ok b)
                (fun g c => fib_fraction cfg adata ct g = Ok c))
      as (rows & -> & FR).
    + apply Forall2_map_r. reflexivity.
    + apply Forall2_snd. exact Fd.
    + apply Forall2_snd. exact Ff.
    + cbn [bind]. exists rows. split; [reflexivity|exact FR].
  - intro H. unfold figure6a_table. rewrite H. reflexivity.
  - intros [e H]. unfold figure6a_table. rewrite H. exists e. reflexivity.
Qed.

Lemma figure6a_table_rows_witness :
  exists rows,
    figure6a_table kernel5 euclid four_bins toy fibroblast = Ok (Some rows)
    /\ map row_gene rows = ["GeneA"%string].
Proof.
  destruct (proj1 (figure6a_table_rows kernel5 euclid four_bins toy fibroblast
                     ltac:(repeat constructor; simpl; intuition discriminate))
              ["GeneA"%string] ltac:(vm_compute; reflexivity) ltac:(discriminate))
    as (rows & E & F).
  exists rows. split; [exact E|].
  inversion F as [|g row gs rs (Hg & _) F']; subst. inversion F'; subst.
  cbn [map]. rewrite Hg. reflexivity.
Defined.

Lemma scorer_series_keys_witness :
  NoDup (map fst [("GeneB"%string, (6 # 1) / (8 # 1)); ("GeneA"%string, (6 # 1) / (7 # 1))]).
Proof.
  apply (proj1 (proj1 (scorer_series_keys euclid four_bins toy
                         ["GeneB"%string; "GeneA"%string; "GeneB"%string] fibroblast)
                  [("GeneB"%string, (6 # 1) / (8 # 1)); ("GeneA"%string, (6 # 1) / (7 # 1))]
                  eq_refl)).
Defined.

(** ** The niche proportions of Figure 6B *)

Lemma list_sum_cons (x : nat) (l : list nat) : list_sum (x :: l) = (x + list_sum l)%nat.
Proof. reflexivity. Qed.

Lemma list_sum_add {A : Type} (a b : A -> nat) (l : list A) :
  list_sum (map (fun x => (a x + b x)%nat) l)
  = (list_sum (map a l) + list_sum (map b l))%nat.
Proof.
  induction l as [|x l IH]; [reflexivity|]. cbn [map]. rewrite !list_sum_cons, IH. lia.
Qed.

Lemma one_niche_at_most (s : string) (l : list string) :
  NoDup l ->
  (list_sum (map (fun n => if String.eqb s n then 1 else 0)%nat l) <= 1)%nat.
Proof.
  induction 1 as [|n l NI ND IH]; [cbn; lia|]. cbn [map]. rewrite list_sum_cons.
  destruct (String.eqb s n) eqn:E; [|lia].
  apply String.eqb_eq in E. subst n.
  assert (Z0 : list_sum (map (fun n => if String.eqb s n then 1 else 0)%nat l) = 0%nat).
  { clear IH ND. induction l as [|m l IHl]; [reflexivity|].
    cbn [map]. rewrite list_sum_cons.
    destruct (String.eqb s m) eqn:E.
    - apply String.eqb_eq in E. subst. exfalso. apply NI. left. reflexivity.
    - apply IHl. intro I. apply NI. right. exact I. }
  lia.
Qed.

Lemma niche_counts_le (cells : list Cell) (niches : list string) :
  NoDup niches ->
  (list_sum (map (fun n => count (in_niche n) cells) niches) <= length cells)%nat.
Proof.
  intro ND. induction cells as [|c cs IH]; cbn [length].
  - induction niches as [|n ns IHn]; [apply le_n|]. inversion ND; subst.
    cbn [map]. rewrite list_sum_cons. specialize (IHn H2).
    unfold count in *. cbn [filter length] in *. lia.
  - assert (E : map (fun n => count (in_niche n) (c :: cs)) niches
                = map (fun n => ((if String.eqb (cell_niche c) n then 1 else 0)
                                 + count (in_niche n) cs)%nat) niches).
    { apply map_ext. intro n. unfold count, in_niche. cbn [filter].
      destruct (String.eqb (cell_niche c) n); reflexivity. }
    rewrite E, list_sum_add. pose proof (one_niche_at_most (cell_niche c) niches ND). lia.
Qed.

Lemma Qlen_pos_nonempty {A : Type} (l : list A) : l <> [] -> 0 < Qlen l.
Proof. destruct l; [congruence|intros _; apply Qlen_pos]. Qed.

Lemma niche_bar_value (mask : list Cell) (n : string) :
  mask <> [] ->
  (if (count (in_niche n) mask =? 0)%nat then 0
   else inject_Z (Z.of_nat (count (in_niche n) mask)) / Qlen mask)
  * Qlen mask == inject_Z (Z.of_nat (count (in_niche n) mask)).
Proof.
  intro NE. assert (P : 0 < Qlen mask) by (destruct mask; [congruence|apply Qlen_pos]).
  destruct (count (in_niche n) mask =? 0)%nat eqn:E.
  - apply Nat.eqb_eq in E. rewrite E. simpl. ring.
  - set (L := Qlen mask) in *. field. lra.
Qed.

(** The bars of Figure 6B for a gene of the table are the shares, among
    all cells that express the gene, of the fibrotic niches and of the
    remote niche, in that order: each lies between 0 and 1; when those
    niche names are distinct the bars add up to at most 1 (cells of other
    niches count in the denominator); all bars are 0 when no cell
    expresses the gene.  A gene that is not a column raises
    [KeyError]. *)
Theorem niche_percent_bars cfg adata g :
  (~ In g (var_names adata) -> niche_percent cfg adata g = Raise KeyError)
  /\ (In g (var_names adata) ->
      exists bars,
        niche_percent cfg adata g = Ok bars
        /\ map fst bars = fibrotic_niches cfg ++ [remote_niche cfg]
        /\ Forall (fun kv => 0 <= snd kv /\ snd kv <= 1) bars
        /\ (NoDup (fibrotic_niches cfg ++ [remote_niche cfg]) ->
            Qsum (map snd bars) <= 1)
        /\ (filter (expressed adata g) (obs adata) = [] ->
            Forall (fun kv => snd kv = 0) bars)).
Proof.
  split.
  - intro NI. unfold niche_percent.
    destruct (index_of g (var_names adata)) as [j|] eqn:E; [|reflexivity].
    exfalso. apply NI. clear NI. revert j E.
    induction (var_names adata) as [|n r IH]; intros j E; [discriminate|].
    cbn [index_of] in E. destruct (String.eqb g n) eqn:B.
    + apply String.eqb_eq in B. left. congruence.
    + right. destruct (index_of g r) as [k|]; [|discriminate]. apply (IH k eq_refl).
  - intro I. unfold niche_percent. destruct (index_of_In g _ I) as [j ->].
    set (mask := filter (expressed adata g) (obs adata)).
    set (niches := fibrotic_niches cfg ++ [remote_niche cfg]).
    eexists. split; [reflexivity|]. split; [|split; [|split]].
    + rewrite map_map. cbn [fst]. apply map_id.
    + apply Forall_forall. intros kv Hkv. apply in_map_iff in Hkv.
      destruct Hkv as (n & <- & _). cbn [snd].
      destruct (count (in_niche n) mask =? 0)%nat eqn:E; [split; [apply Qle_refl|lra]|].
      apply Nat.eqb_neq in E.
      assert (Lc : (count (in_niche n) mask <= length mask)%nat)
        by (unfold count; apply filter_length_le).
      assert (P : 0 < Qlen mask) by (unfold Qlen; apply inject_nat_pos; lia).
      split.
      * apply Qle_shift_div_l; [exact P|]. rewrite Qmult_0_l.
        change 0 with (inject_Z 0). rewrite <- Zle_Qle. lia.
      * apply Qle_shift_div_r; [exact P|]. rewrite Qmult_1_l.
        unfold Qlen. apply inject_nat_le. exact Lc.
    + intro ND. rewrite map_map. cbn [snd].
      assert (D : mask = [] \/ mask <> [])
        by (destruct mask; [left; reflexivity|right; discriminate]).
      destruct D as [EM|NE].
      * rewrite Qsum_zero; [lra|]. apply Forall_forall. intros v Hv.
        apply in_map_iff in Hv. destruct Hv as (n & <- & _). rewrite EM. reflexivity.
      * assert (P : 0 < Qlen mask) by (apply Qlen_pos_nonempty; exact NE).
        assert (S : Qsum (map (fun n =>
                      if (count (in_niche n) mask =? 0)%nat then 0
                      else inject_Z (Z.of_nat (count (in_niche n) mask)) / Qlen mask)
                    niches) * Qlen mask
                    == inject_Z (Z.of_nat (list_sum (map (fun n => count (in_niche n) mask)
                                                         niches)))).
        { induction niches as [|n ns IHn]; [simpl; ring|].
          cbn [map]. rewrite list_sum_cons, Qsum_cons, Nat2Z.inj_add, inject_Z_plus.
          rewrite Qmult_plus_distr_l, (niche_bar_value mask n NE).
          rewrite IHn by (inversion ND; assumption). reflexivity. }
        pose proof (inject_nat_le _ _ (niche_counts_le mask niches ND)) as B.
        rewrite <- S in B. fold (Qlen mask) in B.
        set (L := Qlen mask) in *.
        set (T := Qsum _) in *.
        apply Qmult_le_r with (z := L); [exact P|]. lra.
    + intro E. apply Forall_forall. intros kv Hkv. apply in_map_iff in Hkv.
      destruct Hkv as (n & <- & _). fold mask in E. rewrite E. reflexivity.
Qed.

Lemma niche_percent_bars_witness :
  exists bars,
    niche_percent four_bins toy "GeneA" = Ok bars
    /\ Qsum (map snd bars) <= 1.
Proof.
  destruct (proj2 (niche_percent_bars four_bins toy "GeneA"%string)
              ltac:(simpl; tauto)) as (bars & E & _ & _ & S & _).
  exists bars. split; [exact E|]. apply S.
  repeat constructor; simpl; intuition discriminate.
Defined.

(** ** The pseudotime curves of Figures 6C to 6F *)

(** When the loop over [niche_list] completes, it has drawn one curve
    per niche that holds an activated fibroblast, in the order of the
    list, each with [NUM_BINS] centres and [NUM_BINS] smoothed values, so
    that [ax1.plot(ctr, curve)] gets arrays of one length.  Niches
    without such a cell are skipped; if all are, nothing is read from the
    table and even a gene that is not a column raises nothing. *)
Theorem pseudotime_curves_shape gw cfg adata g niches :
  (forall curves,
     pseudotime_curves gw cfg adata g niches = Ok curves ->
     map fst curves
     = filter (fun niche =>
                 negb (count (fun c => is_type fibroblast c && in_niche niche c)
                             (obs adata) =? 0)%nat) niches
     /\ Forall (fun c => length (fst (snd c)) = Z.to_nat (NUM_BINS cfg)
                         /\ length (snd (snd c)) = Z.to_nat (NUM_BINS cfg)) curves)
  /\ ((forall niche, In niche niches ->
         filter (fun c => is_type fibroblast c && in_niche niche c) (obs adata) = []) ->
      pseudotime_curves gw cfg adata g niches = Ok []).
Proof.
  split.
  - induction niches as [|n rest IH]; intros curves H.
    + inversion H. split; [reflexivity|constructor].
    + cbn [pseudotime_curves filter] in H |- *.
      unfold n_obs, subset in H. cbn [obs] in H. unfold count.
      destruct (length (filter _ (obs adata)) =? 0)%nat; cbn [negb].
      * apply IH. exact H.
      * apply bind_Ok in H. destruct H as ([grp ctr] & G & H). cbn [fst snd] in H.
        destruct (index_of g (var_names adata)) as [j|]; [|discriminate].
        apply bind_Ok in H. destruct H as (cs & R & H). inversion H; subst curves; clear H.
        destruct (IH _ R) as (K & F). cbn [map fst]. unfold count in K. rewrite K.
        split; [reflexivity|]. constructor; [|exact F]. cbn [fst snd].
        pose proof (get_grouped_data_rows _ _ _ _ G) as Lg.
        split.
        -- unfold get_grouped_data in G. apply bind_Ok in G.
           destruct G as ([bins codes] & P & G). cbn [fst snd] in G.
           inversion G; subst. destruct (pt_bin_Ok_shape _ _ _ _ P) as (_ & Lb & _).
           rewrite length_map, length_combine, removelast_length, length_tl, Lb. lia.
        -- unfold gaussian_filter1d. rewrite correlate1d_length, column_length. exact Lg.
  - induction niches as [|n rest IH]; intro H; [reflexivity|].
    cbn [pseudotime_curves]. unfold n_obs, subset. cbn [obs].
    rewrite (H n (or_introl eq_refl)). cbn [length Nat.eqb].
    apply IH. intros m I. apply H. right. exact I.
Qed.

Lemma pseudotime_curves_shape_witness :
  exists curves,
    pseudotime_curves kernel5 four_bins toy "GeneA" (niche_list four_bins) = Ok curves
    /\ map fst curves
       = ["Fibrotic Niche"%string; "Ultraproximal"%string; "Proximal"%string;
          "Remote"%string]
    /\ Forall (fun c => length (fst (snd c)) = 4%nat /\ length (snd (snd c)) = 4%nat)
         curves.
Proof.
  destruct (pseudotime_curves kernel5 four_bins toy "GeneA" (niche_list four_bins))
    as [curves|e] eqn:E; [|vm_compute in E; discriminate].
  exists curves. split; [reflexivity|].
  destruct (proj1 (pseudotime_curves_shape kernel5 four_bins toy "GeneA"%string
                     (niche_list four_bins)) curves E) as [M F].
  split; [rewrite M; vm_compute; reflexivity|exact F].
Defined.

(** On a table whose gene names are distinct the cascade never returns a
    gene twice, so the gene list can key the colour dictionary of the
    scatter plot. *)
Theorem cascade_output_NoDup gw cfg adata ct passed :
  NoDup (var_names adata) ->
  filter_genes_by_conditions gw cfg adata ct = Ok passed ->
  NoDup passed.
Proof.
  intros ND H.
  apply (subseq_NoDup _ _ (cascade_subseq_var_names _ _ _ _ _ H) ND).
Qed.

Lemma cascade_output_NoDup_witness : NoDup ["GeneA"%string].
Proof.
  apply (cascade_output_NoDup kernel5 four_bins toy fibroblast ["GeneA"%string]).
  - repeat constructor; simpl; intuition discriminate.
  - vm_compute. reflexivity.
Defined.
